(** * Manifest transformers of the operator's [common] reconciler package

    A shallow embedding of [pkg/reconciler/common/transformers.go] and of the
    few library calls it is built on, followed by the properties of the
    transformation pipeline.

    Go strings are byte sequences and are modelled by [string]; Go maps by
    [gmap]; slices that are written by index by lists with stdpp's lookup
    and insert, the run-time bounds check written out.  A Go function that
    can panic returns a [res]; a transformer, which mutates the document it
    is handed and returns an [error], returns an [outcome] that carries the
    document as the call leaves it. *)

From stdpp Require Import gmap strings list fin_maps option.
From Stdlib Require Import ZArith Ascii.

#[local] Set Warnings "-register-all".

(** ** The [strings] package, as far as the transformers use it *)

Module GoStrings.

(** [unicode.ToLower] on one byte.  Only the ASCII letters are mapped:
    on ASCII input this is what [strings.ToLower] does, bytes from 0x80
    on are kept as they are. *)
Definition lowerByte (c : ascii) : ascii :=
  let n := nat_of_ascii c in
  if (65 <=? n)%nat && (n <=? 90)%nat then ascii_of_nat (n + 32) else c.

Fixpoint mapBytes (f : ascii → ascii) (s : string) : string :=
  match s with
  | EmptyString => EmptyString
  | String c s' => String (f c) (mapBytes f s')
  end.

Definition ToLower (s : string) : string := mapBytes lowerByte s.

(** [strings.ReplaceAll s old new] for one-byte [old] and [new]. *)
Definition ReplaceAll (s : string) (old new : ascii) : string :=
  mapBytes (λ c, if decide (c = old) then new else c) s.

(** [strings.Split s sep] for a one-byte separator: the pieces between
    the separators, one more than there are separators. *)
Fixpoint Split (s : string) (sep : ascii) : list string :=
  match s with
  | EmptyString => [EmptyString]
  | String c s' =>
      if decide (c = sep) then EmptyString :: Split s' sep
      else match Split s' sep with
           | piece :: pieces => String c piece :: pieces
           | [] => [String c EmptyString]
           end
  end.

Fixpoint HasPrefix (s prefix : string) : bool :=
  match prefix, s with
  | EmptyString, _ => true
  | String p prefix', String c s' =>
      if decide (c = p) then HasPrefix s' prefix' else false
  | String _ _, EmptyString => false
  end.

Fixpoint dropBytes (n : nat) (s : string) : string :=
  match n, s with
  | S n', String _ s' => dropBytes n' s'
  | _, _ => s
  end.

Definition TrimPrefix (s prefix : string) : string :=
  if HasPrefix s prefix then dropBytes (String.length prefix) s else s.

End GoStrings.

Import GoStrings.

(** ** Results of calls that can panic *)

Inductive res (A : Type) : Type :=
| Ok (a : A)
| Panic (msg : string).
Arguments Ok {A} a.
Arguments Panic {A} msg.

#[global] Instance res_ret : MRet res := λ A a, Ok a.
#[global] Instance res_bind : MBind res := λ A B k r,
  match r with
  | Ok a => k a
  | Panic msg => Panic msg
  end.

(** ** Constants *)

Definition AnnotationPreserveNS : string := "operator.tekton.dev/preserve-namespace".
Definition PipelinesImagePrefix : string := "IMAGE_PIPELINES_".
Definition TriggersImagePrefix : string := "IMAGE_TRIGGERS_".
Definition AddonsImagePrefix : string := "IMAGE_ADDONS_".
Definition ArgPrefix : string := "arg_".
Definition ParamPrefix : string := "param_".

(** ** Override keys *)

Definition formKey (prefix arg : string) : string :=
  let argument := ToLower arg in
  let argument := if decide (prefix ≠ "") then prefix +:+ argument else argument in
  ReplaceAll argument "-" "_".

Definition splitsByEqual (arg : string) : list string * bool :=
  let values := Split arg "=" in
  if decide (length values = 2) then (values, true) else (values, false).

(** ** Container arguments

    [for a, arg := range container.Args] fixes the number of rounds when the
    loop starts and reads [container.Args[a]] at the start of round [a], so a
    round sees what earlier rounds stored.  [argsRounds n a args] runs [n]
    rounds from index [a].  An index expression outside the slice panics. *)

Fixpoint argsRounds (images : gmap string string) (n a : nat) (args : list string)
  : res (list string) :=
  match n with
  | O => Ok args
  | S n' =>
      match args !! a with
      | None => Panic "index out of range"
      | Some arg =>
          let '(argVal, hasArg) := splitsByEqual arg in
          if hasArg then
            let flag := default "" (argVal !! 0) in
            let argument := formKey ArgPrefix flag in
            match images !! argument with
            | Some url => argsRounds images n' (S a) (<[a := flag +:+ "=" +:+ url]> args)
            | None => argsRounds images n' (S a) args
            end
          else
            let argument := formKey ArgPrefix arg in
            match images !! argument with
            | Some url =>
                if decide (S a < length args)
                then argsRounds images n' (S a) (<[S a := url]> args)
                else Panic "index out of range"
            | None => argsRounds images n' (S a) args
            end
      end
  end.

Definition replaceContainersArgsImage (args : list string) (images : gmap string string)
  : res (list string) :=
  argsRounds images (length args) 0 args.

(** ** Documents

    The content of an [unstructured.Unstructured] is a tree of JSON values:
    [nil], [bool], [int64], [float64] (kept as its bit pattern, no arithmetic
    is done on it), [string], [[]interface{}] and [map[string]interface{}].
    The documents of a manifest are trees without sharing, so a tree value
    stands for the object and a store through a path for a store through the
    map that the path leads to. *)

Inductive value : Type :=
| VNil
| VBool (b : bool)
| VInt (n : Z)
| VFloat (bits : Z)
| VStr (s : string)
| VSlice (l : list value)
| VMap (m : gmap string value).

Abbreviation Unstructured := (gmap string value).

Inductive error : Type :=
| AccessorError (path : list string) (val : value) (expected : string)
| SetError (path : list string)
| LibraryError (msg : string).

(** A Go [(T, error)] pair. *)
Inductive result (A : Type) : Type :=
| Success (a : A)
| Failure (err : error).
Arguments Success {A} a.
Arguments Failure {A} err.

(** A Go [(T, found bool, error)] triple. *)
Inductive lookup (A : Type) : Type :=
| Found (a : A)
| NotFound
| LookupError (err : error).
Arguments Found {A} a.
Arguments NotFound {A}.
Arguments LookupError {A} err.

(** What a call of a transformer does to the document behind its pointer:
    it returns, leaving the document as [u] and handing back [err], or it
    panics. *)
Inductive outcome : Type :=
| Returns (u : Unstructured) (err : option error)
| Panics (msg : string).

Definition Transformer : Type := Unstructured → outcome.

(** ** Accessors of [k8s.io/apimachinery/.../unstructured]

    [NestedFieldNoCopy] walks the fields down from the object; a [nil] on
    the way is "not found", anything but a map on the way is an error, and
    the value the last field leads to is handed back whatever its type. *)

Module unstructured.

Fixpoint nestedFieldFrom (val : value) (seen fields : list string) : lookup value :=
  match fields with
  | [] => Found val
  | field :: fields' =>
      match val with
      | VNil => NotFound
      | VMap m =>
          match m !! field with
          | Some v => nestedFieldFrom v (seen ++ [field]) fields'
          | None => NotFound
          end
      | _ => LookupError (AccessorError (seen ++ [field]) val "map[string]interface{}")
      end
  end.

Definition NestedFieldNoCopy (obj : Unstructured) (fields : list string) : lookup value :=
  nestedFieldFrom (VMap obj) [] fields.

(** The copy [NestedSlice] hands back is a value here. *)
Definition NestedSlice (obj : Unstructured) (fields : list string) : lookup (list value) :=
  match NestedFieldNoCopy obj fields with
  | Found (VSlice l) => Found l
  | Found val => LookupError (AccessorError fields val "[]interface{}")
  | NotFound => NotFound
  | LookupError err => LookupError err
  end.

Definition NestedString (obj : Unstructured) (fields : list string) : lookup string :=
  match NestedFieldNoCopy obj fields with
  | Found (VStr s) => Found s
  | Found val => LookupError (AccessorError fields val "string")
  | NotFound => NotFound
  | LookupError err => LookupError err
  end.

Definition asString (v : value) : option string :=
  match v with
  | VStr s => Some s
  | _ => None
  end.

(** [NestedStringMap]: one value that is not a string makes the whole
    call an error. *)
Definition NestedStringMap (obj : Unstructured) (fields : list string)
  : lookup (gmap string string) :=
  match NestedFieldNoCopy obj fields with
  | Found (VMap m) =>
      if decide (map_Forall (λ _ v, is_Some (asString v)) m)
      then Found (omap asString m)
      else LookupError (AccessorError fields (VMap m) "string")
  | Found val => LookupError (AccessorError fields val "map[string]interface{}")
  | NotFound => NotFound
  | LookupError err => LookupError err
  end.

(** [setNestedFieldNoCopy]: maps that are missing on the way are made;
    a value on the way that is not a map is an error, and since nothing
    below a map that was just made can be in the way, an error leaves the
    object as it was. *)
Fixpoint setNestedFrom (m : gmap string value) (val : value) (seen : list string)
    (field : string) (fields : list string) : result (gmap string value) :=
  match fields with
  | [] => Success (<[field := val]> m)
  | field' :: fields' =>
      match m !! field with
      | Some (VMap sub) =>
          match setNestedFrom sub val (seen ++ [field]) field' fields' with
          | Success sub' => Success (<[field := VMap sub']> m)
          | Failure err => Failure err
          end
      | Some _ => Failure (SetError (seen ++ [field]))
      | None =>
          match setNestedFrom ∅ val (seen ++ [field]) field' fields' with
          | Success sub' => Success (<[field := VMap sub']> m)
          | Failure err => Failure err
          end
      end
  end.

Definition SetNestedField (obj : Unstructured) (val : value) (field : string)
    (fields : list string) : result Unstructured :=
  setNestedFrom obj val [] field fields.

Definition GetKind (u : Unstructured) : string :=
  match NestedString u ["kind"] with
  | Found s => s
  | _ => ""
  end.

(** A failed [NestedStringMap] leaves [GetAnnotations] with the nil map,
    in which no key is found. *)
Definition GetAnnotations (u : Unstructured) : gmap string string :=
  match NestedStringMap u ["metadata"; "annotations"] with
  | Found m => m
  | _ => ∅
  end.

(** The store [m[k] = v] into the map that [fields] leads to, seen from
    the root of the tree. *)
Fixpoint storeFrom (val : value) (fields : list string) (k : string) (v : value) : value :=
  match fields, val with
  | [], VMap m => VMap (<[k := v]> m)
  | field :: fields', VMap m =>
      match m !! field with
      | Some sub => VMap (<[field := storeFrom sub fields' k v]> m)
      | None => val
      end
  | _, _ => val
  end.

Definition storeAt (obj : Unstructured) (fields : list string) (k : string) (v : value)
  : Unstructured :=
  match storeFrom (VMap obj) fields k v with
  | VMap m => m
  | _ => obj
  end.

End unstructured.

Import unstructured.

(** ** The override table from the environment

    [environ] is what [os.Environ()] hands back.  [keyValue[1]] panics on an
    entry without ["="]. *)

(** The loop of [ImagesFromEnv]; [images] is the map so far. *)
Fixpoint envRounds (prefix : string) (environ : list string) (images : gmap string string)
  : res (gmap string string) :=
  match environ with
  | [] => Ok images
  | env :: environ' =>
      if negb (HasPrefix env prefix) then envRounds prefix environ' images
      else
        let keyValue := Split env "=" in
        match keyValue !! 0, keyValue !! 1 with
        | Some key, Some url =>
            let name := TrimPrefix key prefix in
            envRounds prefix environ' (<[name := url]> images)
        | _, _ => Panic "index out of range"
        end
  end.

Definition ImagesFromEnv (environ : list string) (prefix : string) : res (gmap string string) :=
  envRounds prefix environ ∅.

(** ** Lower-case keys

    [for k, v := range keyValues] visits each pair of the map once, in an
    order that is not fixed.  [lowerCaseRounds] is the loop over the pairs in
    the order they are visited; [ToLowerCaseKeys keyValues newMap] says that
    [newMap] is what the function returns for some order. *)

Definition lowerCaseRounds (pairs : list (string * string)) (newMap : gmap string string)
  : gmap string string :=
  foldl (λ m kv, <[ToLower kv.1 := kv.2]> m) newMap pairs.

Definition ToLowerCaseKeys (keyValues newMap : gmap string string) : Prop :=
  ∃ order, order ≡ₚ map_to_list keyValues ∧ newMap = lowerCaseRounds order ∅.

(** ** Steps and params of a task

    The log lines are not modelled.  [s.(map[string]interface{})] panics on
    an element that is not a map; [step["name"].(string)] is the checked
    form. *)

(** One round of the loop of [replaceStepsImages]. *)
Definition replaceStepImage (override : gmap string string) (s : value) : res value :=
  match s with
  | VMap step =>
      match step !! "name" with
      | Some (VStr name) =>
          let name := formKey "" name in
          match override !! name with
          | Some image =>
              if decide (image = "") then Ok s
              else Ok (VMap (<["image" := VStr image]> step))
          | None => Ok s
          end
      | _ => Ok s
      end
  | _ => Panic "interface conversion"
  end.

Fixpoint replaceStepsImages (steps : list value) (override : gmap string string)
  : res (list value) :=
  match steps with
  | [] => Ok []
  | s :: steps' =>
      s' ← replaceStepImage override s;
      steps'' ← replaceStepsImages steps' override;
      Ok (s' :: steps'')
  end.

(** One round of the loop of [replaceParamsImage]. *)
Definition replaceParamImage (override : gmap string string) (p : value) : res value :=
  match p with
  | VMap param =>
      match param !! "name" with
      | Some (VStr name) =>
          let name := formKey ParamPrefix name in
          match override !! name with
          | Some image =>
              if decide (image = "") then Ok p
              else Ok (VMap (<["default" := VStr image]> param))
          | None => Ok p
          end
      | _ => Ok p
      end
  | _ => Panic "interface conversion"
  end.

Fixpoint replaceParamsImage (params : list value) (override : gmap string string)
  : res (list value) :=
  match params with
  | [] => Ok []
  | p :: params' =>
      p' ← replaceParamImage override p;
      params'' ← replaceParamsImage params' override;
      Ok (p' :: params'')
  end.

Definition TaskImages (images : gmap string string) : Transformer := λ u,
  if decide (GetKind u ≠ "ClusterTask") then Returns u None
  else
    match NestedSlice u ["spec"; "steps"] with
    | LookupError err => Returns u (Some err)
    | NotFound => Returns u None
    | Found steps =>
        match replaceStepsImages steps images with
        | Panic msg => Panics msg
        | Ok steps =>
            match SetNestedField u (VSlice steps) "spec" ["steps"] with
            | Failure err => Returns u (Some err)
            | Success u =>
                match NestedSlice u ["spec"; "params"] with
                | LookupError err => Returns u (Some err)
                | NotFound => Returns u None
                | Found params =>
                    match replaceParamsImage params images with
                    | Panic msg => Panics msg
                    | Ok params =>
                        match SetNestedField u (VSlice params) "spec" ["params"] with
                        | Failure err => Returns u (Some err)
                        | Success u => Returns u None
                        end
                    end
                end
            end
        end
    end.

(** ** The webhook client configuration of a CRD *)

Definition webhookServicePath : list string :=
  ["spec"; "conversion"; "webhookClientConfig"; "service"].

Definition injectNamespaceCRDWebhookClientConfig (targetNamespace : string) : Transformer := λ u,
  let kind := ToLower (GetKind u) in
  if decide (kind ≠ "customresourcedefinition") then Returns u None
  else
    match NestedFieldNoCopy u webhookServicePath with
    | NotFound => Returns u None
    | LookupError err => Returns u (Some err)
    | Found service =>
        match service with
        | VMap m =>
            if decide (is_Some (m !! "namespace"))
            then Returns (storeAt u webhookServicePath "namespace" (VStr targetNamespace)) None
            else Returns u None
        | _ => Panics "interface conversion"
        end
    end.

(** ** The conditional namespace injection

    [tf] is the transformer [mf.InjectNamespace targetNamespace] of the
    manifest library. *)

Definition injectNamespaceConditional (InjectNamespace : string → Transformer)
    (preserveNamespace targetNamespace : string) : Transformer :=
  let tf := InjectNamespace targetNamespace in
  λ u,
    let annotations := GetAnnotations u in
    match annotations !! preserveNamespace with
    | Some val => if decide (val = "true") then Returns u None else tf u
    | None => tf u
    end.

(** ** Deployments

    Of the typed [appsv1.Deployment] the transformer touches the containers
    of the pod template, and of a [corev1.Container] its name, image and
    arguments; the other fields are carried along in [DeploymentRest] and
    [ContainerRest]. *)

Section Deployments.

Variables ContainerRest DeploymentRest : Type.

Record Container : Type := mkContainer {
  Name : string;
  Image : string;
  Args : list string;
  containerRest : ContainerRest
}.

Record Deployment : Type := mkDeployment {
  Containers : list Container;
  deploymentRest : DeploymentRest
}.

(** [container] is a copy of [containers[i]] whose [Args] is the same
    slice, so the stores of [replaceContainersArgsImage] land in
    [containers[i].Args]. *)
Fixpoint replaceContainerImages (containers : list Container) (images : gmap string string)
  : res (list Container) :=
  match containers with
  | [] => Ok []
  | container :: containers' =>
      let name := formKey "" (Name container) in
      let image := default (Image container) (images !! name) in
      args ← replaceContainersArgsImage (Args container) images;
      rest ← replaceContainerImages containers' images;
      Ok (mkContainer (Name container) image args (containerRest container) :: rest)
  end.

(** The two directions of [runtime.DefaultUnstructuredConverter]. *)
Variable FromUnstructured : Unstructured → result Deployment.
Variable ToUnstructured : Deployment → result Unstructured.

Definition DeploymentImages (images : gmap string string) : Transformer := λ u,
  if decide (GetKind u ≠ "Deployment") then Returns u None
  else
    match FromUnstructured u with
    | Failure err => Returns u (Some err)
    | Success d =>
        match replaceContainerImages (Containers d) images with
        | Panic msg => Panics msg
        | Ok containers =>
            match ToUnstructured (mkDeployment containers (deploymentRest d)) with
            | Failure err => Returns u (Some err)
            | Success unstrObj => Returns unstrObj None
            end
        end
    end.

End Deployments.

Arguments mkContainer {ContainerRest}.
Arguments Name {ContainerRest}.
Arguments Image {ContainerRest}.
Arguments Args {ContainerRest}.
Arguments containerRest {ContainerRest}.
Arguments mkDeployment {ContainerRest DeploymentRest}.
Arguments Containers {ContainerRest DeploymentRest}.
Arguments deploymentRest {ContainerRest DeploymentRest}.
Arguments replaceContainerImages {ContainerRest}.
Arguments DeploymentImages {ContainerRest DeploymentRest}.

(** ** The pipeline

    [Manifest.Transform] of the manifest library works on deep copies of the
    resources: each copy goes through the transformers in order, a nil
    transformer is skipped, and the first error ends the call with an empty
    manifest and that error. *)

Module mf.

Record Manifest : Type := mkManifest { resources : list Unstructured }.

Fixpoint transformResource (fns : list (option Transformer)) (spec : Unstructured) : outcome :=
  match fns with
  | [] => Returns spec None
  | None :: fns' => transformResource fns' spec
  | Some transform :: fns' =>
      match transform spec with
      | Returns spec' None => transformResource fns' spec'
      | Returns spec' (Some err) => Returns spec' (Some err)
      | Panics msg => Panics msg
      end
  end.

Fixpoint transformResources (fns : list (option Transformer)) (rs : list Unstructured)
  : res (result (list Unstructured)) :=
  match rs with
  | [] => Ok (Success [])
  | spec :: rs' =>
      match transformResource fns spec with
      | Panics msg => Panic msg
      | Returns _ (Some err) => Ok (Failure err)
      | Returns spec' None =>
          match transformResources fns rs' with
          | Ok (Success rs'') => Ok (Success (spec' :: rs''))
          | other => other
          end
      end
  end.

Definition Transform (m : Manifest) (fns : list (option Transformer))
  : res (result Manifest) :=
  match transformResources fns (resources m) with
  | Ok (Success rs) => Ok (Success (mkManifest rs))
  | Ok (Failure err) => Ok (Failure err)
  | Panic msg => Panic msg
  end.

End mf.

(** The component under reconciliation, as far as [Transform] uses it: the
    target namespace of its spec and the install condition of its status,
    which [MarkInstallFailed] sets from the error. *)
Record TektonComponent : Type := mkComponent {
  TargetNamespace : string;
  InstallFailed : option error
}.

Definition MarkInstallFailed (err : error) (obj : TektonComponent) : TektonComponent :=
  mkComponent (TargetNamespace obj) (Some err).

(** What [Transform] works on: the manifest behind the caller's pointer and
    the component. *)
Record world : Type := mkWorld {
  manifest : mf.Manifest;
  instance : TektonComponent
}.

Section Pipeline.

(** [mf.InjectOwner] and [mf.InjectNamespace] of the manifest library. *)
Variable InjectOwner : TektonComponent → Transformer.
Variable InjectNamespace : string → Transformer.

Definition transformers (obj : TektonComponent) : list (option Transformer) :=
  [ Some (InjectOwner obj);
    Some (injectNamespaceConditional InjectNamespace AnnotationPreserveNS (TargetNamespace obj));
    Some (injectNamespaceCRDWebhookClientConfig (TargetNamespace obj)) ].

(** [Transform] returns an [error] (nil is [None]) or panics. *)
Definition Transform (w : world) (extra : list (option Transformer))
  : world * res (option error) :=
  let fns := (transformers (instance w) ++ extra) in
  match mf.Transform (manifest w) fns with
  | Panic msg => (w, Panic msg)
  | Ok (Failure err) =>
      (mkWorld (manifest w) (MarkInstallFailed err (instance w)), Ok (Some err))
  | Ok (Success m) => (mkWorld m (instance w), Ok None)
  end.

End Pipeline.

(** * Notions for the statements *)

(** The key under which an argument is looked up. *)
Definition argKey (arg : string) : string :=
  let '(argVal, hasArg) := splitsByEqual arg in
  if hasArg then formKey ArgPrefix (default "" (argVal !! 0)) else formKey ArgPrefix arg.

Definition bareFlag (arg : string) : Prop := (splitsByEqual arg).2 = false.

#[global] Instance bareFlag_dec arg : Decision (bareFlag arg).
Proof. unfold bareFlag. apply _. Defined.

Definition isMap (v : value) : Prop :=
  match v with
  | VMap _ => True
  | _ => False
  end.

#[global] Instance isMap_dec v : Decision (isMap v).
Proof. destruct v; simpl; apply _. Defined.

(** [new] is [old] but for [field], which holds the override when the
    element has a string name whose key is in the table with a value other
    than the empty string; in every other case [new] is [old]. *)
Definition writesOnly (field prefix : string) (override : gmap string string)
    (old new : value) : Prop :=
  ∃ m m' : gmap string value,
    old = VMap m ∧ new = VMap m'
    ∧ (∀ k, k ≠ field → m' !! k = m !! k)
    ∧ match m !! "name" with
      | Some (VStr name) =>
          match override !! formKey prefix name with
          | Some image =>
              if decide (image = "") then m' = m else m' !! field = Some (VStr image)
          | None => m' = m
          end
      | _ => m' = m
      end.

Fixpoint containsByte (c : ascii) (s : string) : bool :=
  match s with
  | EmptyString => false
  | String c' s' => if decide (c' = c) then true else containsByte c s'
  end.

(** No key of the table holds an equals sign. *)
Definition keysWithoutEquals (images : gmap string string) : Prop :=
  map_Forall (λ key _, containsByte "=" key = false) images.

(** The rewrite of an argument of the form [flag=value]. *)
Definition rewriteAssigned (images : gmap string string) (arg : string) : string :=
  let flag := default "" ((splitsByEqual arg).1 !! 0) in
  match images !! formKey ArgPrefix flag with
  | Some url => flag +:+ "=" +:+ url
  | None => arg
  end.

(** The rounds of [replaceContainersArgsImage] told by what they read: [x]
    is what the round reads at its index, [rest] what the slice holds after
    that index. *)
Fixpoint scanArgs (images : gmap string string) (x : string) (rest : list string)
  : res (list string) :=
  let continue (x' : string) : res (list string) :=
    match rest with
    | [] => Ok [x']
    | y :: rest' => tail ← scanArgs images y rest'; Ok (x' :: tail)
    end in
  if (splitsByEqual x).2 then continue (rewriteAssigned images x)
  else
    match images !! formKey ArgPrefix x with
    | Some url =>
        match rest with
        | [] => Panic "index out of range"
        | _ :: rest' => tail ← scanArgs images url rest'; Ok (x :: tail)
        end
    | None => continue x
    end.

(** The image transformers a component hands to [Transform]. *)
Definition imageTransformers {ContainerRest DeploymentRest : Type}
    (FromUnstructured : Unstructured → result (Deployment ContainerRest DeploymentRest))
    (ToUnstructured : Deployment ContainerRest DeploymentRest → result Unstructured)
    (images : gmap string string) : list (option Transformer) :=
  [ Some (DeploymentImages FromUnstructured ToUnstructured images);
    Some (TaskImages images) ].

(** The conversion back of a typed Deployment that came from a document of
    kind [Deployment], with whatever containers, is of kind [Deployment] and
    converts to that typed Deployment. *)
Definition roundTrips {ContainerRest DeploymentRest : Type}
    (FromUnstructured : Unstructured → result (Deployment ContainerRest DeploymentRest))
    (ToUnstructured : Deployment ContainerRest DeploymentRest → result Unstructured) : Prop :=
  ∀ u d containers unstrObj,
    GetKind u = "Deployment" →
    FromUnstructured u = Success d →
    ToUnstructured (mkDeployment containers (deploymentRest d)) = Success unstrObj →
    GetKind unstrObj = "Deployment"
    ∧ FromUnstructured unstrObj = Success (mkDeployment containers (deploymentRest d)).

(** The library transformers leave [r] as it is. *)
Definition libraryStable (InjectOwner : TektonComponent → Transformer)
    (InjectNamespace : string → Transformer) (obj : TektonComponent) (r : Unstructured) : Prop :=
  InjectOwner obj r = Returns r None
  ∧ (GetAnnotations r !! AnnotationPreserveNS ≠ Some "true" →
     InjectNamespace (TargetNamespace obj) r = Returns r None).

(** * Stand-ins for the library and documents, for the examples *)

Definition unitContainer (name image : string) (args : list string) : Container unit :=
  mkContainer name image args ().

Definition unitDeployment (cs : list (Container unit)) : Deployment unit unit :=
  mkDeployment cs ().

Definition taskWithoutSteps : Unstructured :=
  <["kind" := VStr "ClusterTask"]>
    {["spec" := VMap {["params" :=
        VSlice [VMap (<["name" := VStr "builder"]> {["default" := VStr "old"]})]]}]}.

Definition crdWithStringService : Unstructured :=
  <["kind" := VStr "CustomResourceDefinition"]>
    {["spec" := VMap {["conversion" := VMap {["webhookClientConfig" :=
        VMap {["service" := VStr "tekton-pipelines-webhook"]}]}]}]}.

(** Sets [metadata.namespace], as [SetNamespace] does. *)
Definition sampleInjectNamespace (ns : string) : Transformer := λ u,
  match SetNestedField u (VStr ns) "metadata" ["namespace"] with
  | Success u' => Returns u' None
  | Failure err => Returns u (Some err)
  end.

(** Sets [metadata.ownerReferences] to one reference that names the
    component's namespace. *)
Definition sampleInjectOwner (obj : TektonComponent) : Transformer := λ u,
  match SetNestedField u (VSlice [VMap {["name" := VStr (TargetNamespace obj)]}])
          "metadata" ["ownerReferences"] with
  | Success u' => Returns u' None
  | Failure err => Returns u (Some err)
  end.

Definition annotated (val : string) : Unstructured :=
  <["kind" := VStr "ConfigMap"]>
    {["metadata" := VMap (<["name" := VStr "config-defaults"]>
        {["annotations" := VMap {[AnnotationPreserveNS := VStr val]}]})]}.

(** A stand-in for the converter, for the examples: the typed form keeps
    the metadata and the name, image and arguments of the containers, and
    nothing else. *)
Definition sampleContainerValue (c : Container unit) : value :=
  VMap (<["name" := VStr (Name c)]>
        (<["image" := VStr (Image c)]>
         {["args" := VSlice (VStr <$> Args c)]})).

Definition sampleSpec (cs : list (Container unit)) : value :=
  VMap {["template" := VMap {["spec" :=
    VMap {["containers" := VSlice (sampleContainerValue <$> cs)]}]}]}.

Definition sampleToUnstructured (d : Deployment unit (option value)) : result Unstructured :=
  let typed : Unstructured :=
    <["kind" := VStr "Deployment"]> {["spec" := sampleSpec (Containers d)]} in
  match deploymentRest d with
  | Some metadata => Success (<["metadata" := metadata]> typed)
  | None => Success typed
  end.

Definition sampleStrings (v : option value) : list string :=
  match v with
  | Some (VSlice l) => omap asString l
  | _ => []
  end.

Definition sampleContainerOf (v : value) : option (Container unit) :=
  match v with
  | VMap m =>
      Some (unitContainer (default "" (m !! "name" ≫= asString))
                          (default "" (m !! "image" ≫= asString))
                          (sampleStrings (m !! "args")))
  | _ => None
  end.

Definition sampleFromUnstructured (u : Unstructured) : result (Deployment unit (option value)) :=
  match NestedSlice u ["spec"; "template"; "spec"; "containers"] with
  | Found cs =>
      match mapM sampleContainerOf cs with
      | Some cs' => Success (mkDeployment cs' (u !! "metadata"))
      | None => Failure (LibraryError "cannot unmarshal into corev1.Container")
      end
  | NotFound => Success (mkDeployment [] (u !! "metadata"))
  | LookupError err => Failure err
  end.

Definition sampleDeployment (extra : gmap string value) (args : list string) : Unstructured :=
  <["kind" := VStr "Deployment"]>
    (<["spec" := sampleSpec [unitContainer "controller" "img" args]]> extra).

Definition crdWithStringConfig : Unstructured :=
  <["kind" := VStr "CustomResourceDefinition"]>
    {["spec" := VMap {["conversion" := VMap {["webhookClientConfig" := VStr "inline"]}]}]}.

Definition sampleWorld : world :=
  mkWorld (mf.mkManifest [annotated "true"; crdWithStringConfig; annotated "false"])
          (mkComponent "tekton-pipelines" None).

Definition sampleError : error :=
  AccessorError ["spec"; "conversion"; "webhookClientConfig"; "service"]
    (VStr "inline") "map[string]interface{}".

Definition sampleSteps : list value :=
  [ VMap (<["name" := VStr "Build-Push"]> (<["image" := VStr "old"]> {["script" := VStr "make"]}));
    VMap (<["name" := VStr "report"]> {["image" := VStr "keep"]});
    VMap {["image" := VStr "unnamed"]} ].

Definition sampleParams : list value :=
  [ VMap (<["name" := VStr "BUILDER"]> {["default" := VStr "old"]});
    VMap (<["name" := VStr "verbose"]> {["default" := VStr "false"]}) ].

Definition sampleTask : Unstructured :=
  <["kind" := VStr "ClusterTask"]>
    {["spec" := VMap (<["steps" := VSlice sampleSteps]>
                       (<["params" := VSlice sampleParams]>
                         {["description" := VStr "builds"]}))]}.

Definition sampleOverride : gmap string string :=
  <["build_push" := "new"]> (<["param_builder" := "newer"]> {["param_verbose" := ""]}).

Definition crdWithService : Unstructured :=
  <["kind" := VStr "CustomResourceDefinition"]>
    {["spec" := VMap {["conversion" := VMap {["webhookClientConfig" :=
        VMap {["service" := VMap (<["name" := VStr "tekton-pipelines-webhook"]>
                                  {["namespace" := VStr "default"]})]}]}]}]}.

Definition controllerDeployment : Unstructured :=
  <["metadata" := VMap {["name" := VStr "controller"]}]>
    (sampleDeployment {["unknownField" := VInt 7]} ["--replicas=v1"; "--entrypoint-image"; "old"]).

Definition pipelineOverride : gmap string string :=
  <["arg___replicas" := "v2"]>
    (<["arg___entrypoint_image" := "registry/entrypoint:v2"]>
      (<["controller" := "registry/controller:v2"]> sampleOverride)).

Definition pipelineWorld : world :=
  mkWorld (mf.mkManifest [controllerDeployment; sampleTask; crdWithService; annotated "true"])
          (mkComponent "tekton-pipelines" None).

Definition sampleOwner : value :=
  VSlice [VMap {["name" := VStr "tekton-pipelines"]}].

(** What the run leaves of [pipelineWorld]. *)
Definition pipelineWorldAfter : world :=
  mkWorld
    (mf.mkManifest
       [ <["metadata" := VMap (<["name" := VStr "controller"]>
                               (<["ownerReferences" := sampleOwner]>
                                 {["namespace" := VStr "tekton-pipelines"]}))]>
           (<["kind" := VStr "Deployment"]>
             {["spec" := sampleSpec
                 [unitContainer "controller" "registry/controller:v2"
                    ["--replicas=v2"; "--entrypoint-image"; "registry/entrypoint:v2"]]]});
         <["metadata" := VMap (<["ownerReferences" := sampleOwner]>
                               {["namespace" := VStr "tekton-pipelines"]})]>
           (<["kind" := VStr "ClusterTask"]>
             {["spec" := VMap
                (<["steps" := VSlice
                     [ VMap (<["name" := VStr "Build-Push"]>
                              (<["image" := VStr "new"]> {["script" := VStr "make"]}));
                       VMap (<["name" := VStr "report"]> {["image" := VStr "keep"]});
                       VMap {["image" := VStr "unnamed"]} ]]>
                  (<["params" := VSlice
                       [ VMap (<["name" := VStr "BUILDER"]> {["default" := VStr "newer"]});
                         VMap (<["name" := VStr "verbose"]> {["default" := VStr "false"]}) ]]>
                    {["description" := VStr "builds"]}))]});
         <["metadata" := VMap (<["ownerReferences" := sampleOwner]>
                               {["namespace" := VStr "tekton-pipelines"]})]>
           (<["kind" := VStr "CustomResourceDefinition"]>
             {["spec" := VMap {["conversion" := VMap {["webhookClientConfig" :=
                 VMap {["service" := VMap (<["name" := VStr "tekton-pipelines-webhook"]>
                         {["namespace" := VStr "tekton-pipelines"]})]}]}]}]});
         <["kind" := VStr "ConfigMap"]>
           {["metadata" := VMap (<["name" := VStr "config-defaults"]>
               (<["ownerReferences" := sampleOwner]>
                 {["annotations" := VMap {[AnnotationPreserveNS := VStr "true"]}]}))]} ])
    (mkComponent "tekton-pipelines" None).

Definition equalsOverride : gmap string string :=
  <["arg___opt" := "k=v"]> {["arg___opt=k=v" := "z"]}.

Definition equalsWorld : world :=
  mkWorld (mf.mkManifest [sampleDeployment ∅ ["--opt=1"; "next"]])
          (mkComponent "tekton-pipelines" None).

(** What the stand-ins make of [sampleDeployment ∅ args]. *)
Definition ownedDeployment (args : list string) : Unstructured :=
  <["metadata" := VMap (<["namespace" := VStr "tekton-pipelines"]>
      {["ownerReferences" := VSlice [VMap {["name" := VStr "tekton-pipelines"]}]]})]>
    (sampleDeployment ∅ args).

(** * Notions for the further properties *)

Fixpoint countByte (c : ascii) (s : string) : nat :=
  match s with
  | EmptyString => 0
  | String c' s' => if decide (c' = c) then S (countByte c s') else countByte c s'
  end.

(** What [strings.ReplaceAll s "-" "_"] does to one byte. *)
Definition underscore (c : ascii) : ascii :=
  if decide (c = "-"%char) then "_"%char else c.

(** A document whose containers hold a string; the stand-in converter
    refuses it. *)
Definition brokenDeployment : Unstructured :=
  <["kind" := VStr "Deployment"]>
    {["spec" := VMap {["template" := VMap {["spec" :=
        VMap {["containers" := VSlice [VStr "controller"]]}]}]}]}.

(** A task whose [spec.params] is a string. *)
Definition taskWithStringParams : Unstructured :=
  <["kind" := VStr "ClusterTask"]>
    {["spec" := VMap (<["steps" := VSlice sampleSteps]> {["params" := VStr "none"]})]}.

(** Two paths part ways: after a common start they go on with different
    fields. *)
Definition partWays (p q : list string) : Prop :=
  ∃ common a b p' q', p = common ++ a :: p' ∧ q = common ++ b :: q' ∧ a ≠ b.

(** On the way along [fields] from the object there is a value that is
    neither nil nor a map. *)
Definition blockedBefore (u : Unstructured) (fields : list string) : Prop :=
  ∃ (before : list string) (field : string) (after : list string) (val : value),
    fields = before ++ field :: after
    ∧ NestedFieldNoCopy u before = Found val
    ∧ val ≠ VNil ∧ ¬ isMap val.

(** A document with the preserve annotation and an annotation that is a
    number. *)
Definition annotatedWithNumber : Unstructured :=
  <["kind" := VStr "ConfigMap"]>
    {["metadata" := VMap {["annotations" :=
        VMap (<[AnnotationPreserveNS := VStr "true"]> {["revision" := VInt 3]})]}]}.

(** * Properties *)

(** ** Bytes, pieces and prefixes of strings *)

Lemma Split_nonempty (s : string) (sep : ascii) : Split s sep ≠ [].
Proof.
  destruct s as [|c s]; simpl; [done|].
  destruct (decide (c = sep)); [done|]. by destruct (Split s sep).
Qed.

Lemma Split_without (s : string) (sep : ascii) :
  containsByte sep s = false → Split s sep = [s].
Proof.
  induction s as [|c s IH]; simpl; [done|].
  destruct (decide (c = sep)); [done|]. intros H. by rewrite (IH H).
Qed.

Lemma Split_with (s : string) (sep : ascii) :
  containsByte sep s = true → 2 ≤ length (Split s sep).
Proof.
  induction s as [|c s IH]; simpl; [done|].
  destruct (decide (c = sep)).
  - intros _. pose proof (Split_nonempty s sep). destruct (Split s sep); simpl; [done|lia].
  - intros H. specialize (IH H). destruct (Split s sep); simpl in *; lia.
Qed.

Lemma Split_head_without (s : string) (sep : ascii) (piece : string) (pieces : list string) :
  Split s sep = piece :: pieces → containsByte sep piece = false.
Proof.
  revert piece pieces. induction s as [|c s IH]; intros piece pieces; simpl.
  - by intros [= <- <-].
  - destruct (decide (c = sep)); [by intros [= <- <-]|].
    destruct (Split s sep) as [|p ps] eqn:Hs; [by intros [= <- <-]; simpl; rewrite decide_False|].
    intros [= <- <-]. simpl. rewrite decide_False by done. by eapply IH.
Qed.

Lemma Split_append (a b : string) (sep : ascii) :
  containsByte sep a = false →
  Split (a +:+ String sep b) sep = a :: Split b sep.
Proof.
  induction a as [|c a IH]; simpl.
  - intros _. by rewrite decide_True.
  - destruct (decide (c = sep)); [done|]. intros H. by rewrite (IH H).
Qed.

Lemma containsByte_mapBytes (f : ascii → ascii) (c : ascii) (s : string) :
  f c = c → containsByte c s = true → containsByte c (mapBytes f s) = true.
Proof.
  intros Hf. induction s as [|c' s IH]; simpl; [done|].
  destruct (decide (c' = c)) as [->|].
  - intros _. by rewrite Hf, decide_True.
  - intros H. rewrite (IH H). by destruct (decide (f c' = c)).
Qed.

Lemma containsByte_append (c : ascii) (a b : string) :
  containsByte c b = true → containsByte c (a +:+ b) = true.
Proof.
  intros Hb. induction a as [|c' a IH]; simpl; [done|].
  by destruct (decide (c' = c)).
Qed.

Lemma formKey_keeps_equals (prefix arg : string) :
  containsByte "=" arg = true → containsByte "=" (formKey prefix arg) = true.
Proof.
  intros H. unfold formKey, ReplaceAll, ToLower.
  apply containsByte_mapBytes; [done|].
  destruct (decide (prefix ≠ "")).
  - apply containsByte_append. by apply containsByte_mapBytes.
  - by apply containsByte_mapBytes.
Qed.

Lemma containsByte_append_false (c : ascii) (a b : string) :
  containsByte c a = false → containsByte c b = false → containsByte c (a +:+ b) = false.
Proof.
  intros Ha Hb. revert Ha. induction a as [|c' a IH]; simpl; [done|].
  by destruct (decide (c' = c)).
Qed.

Lemma append_associative (a b c : string) : a +:+ b +:+ c = (a +:+ b) +:+ c.
Proof.
  induction a as [|x a IH]; [done|].
  change (String x (a +:+ b +:+ c) = String x ((a +:+ b) +:+ c)). by rewrite IH.
Qed.

Lemma HasPrefix_append (prefix s : string) : HasPrefix (prefix +:+ s) prefix = true.
Proof.
  induction prefix as [|c prefix IH]; simpl; [by destruct s|]. by rewrite decide_True.
Qed.

Lemma TrimPrefix_append (prefix s : string) : TrimPrefix (prefix +:+ s) prefix = s.
Proof.
  unfold TrimPrefix. rewrite HasPrefix_append.
  induction prefix as [|c prefix IH]; simpl; [by destruct s|done].
Qed.

(** ** Override keys and argument lists *)

(** Rounds can be run in two batches. *)
Lemma argsRounds_add images n m a args :
  argsRounds images (n + m) a args
  = argsRounds images n a args ≫= argsRounds images m (a + n).
Proof.
  revert a args. induction n as [|n IH]; intros a args; simpl.
  - by rewrite Nat.add_0_r.
  - destruct (args !! a) as [arg|]; [|done].
    destruct (splitsByEqual arg) as [argVal [|]];
      repeat case_match; rewrite ?IH; try done;
      by replace (a + S n) with (S a + n) by lia.
Qed.

(** Rounds over arguments that match no key store nothing. *)
Lemma argsRounds_no_match (images : gmap string string) n a (args : list string) :
  a + n ≤ length args →
  (∀ i arg, a ≤ i < a + n → args !! i = Some arg → images !! argKey arg = None) →
  argsRounds images n a args = Ok args.
Proof.
  revert a. induction n as [|n IH]; intros a Hlen Hnone; simpl; [done|].
  destruct (args !! a) as [arg|] eqn:Harg.
  - assert (images !! argKey arg = None) as Hk by (apply (Hnone a); [lia|done]).
    unfold argKey in Hk.
    destruct (splitsByEqual arg) as [argVal [|]]; rewrite Hk;
      (apply IH; [lia | intros i x ? ?; apply (Hnone i); [lia|done]]).
  - apply lookup_ge_None in Harg. lia.
Qed.

Lemma trailing_bare_flag_rounds (images : gmap string string) (pre : list string) flag url :
  (∀ arg, arg ∈ pre → images !! argKey arg = None) →
  bareFlag flag →
  images !! formKey ArgPrefix flag = Some url →
  replaceContainersArgsImage (pre ++ [flag]) images = Panic "index out of range".
Proof.
  intros Hpre Hbare Hurl. unfold replaceContainersArgsImage.
  rewrite length_app. simpl length. rewrite argsRounds_add.
  rewrite argsRounds_no_match; cycle 1.
  { rewrite length_app. simpl. lia. }
  { intros i arg [_ Hi] Hlook. apply Hpre.
    rewrite lookup_app_l in Hlook by (simpl in Hi; lia).
    by eapply list_elem_of_lookup_2. }
  simpl. rewrite lookup_app_r by lia. rewrite Nat.sub_diag. simpl.
  unfold bareFlag in Hbare. destruct (splitsByEqual flag) as [argVal hasArg].
  simpl in Hbare. subst hasArg. rewrite Hurl.
  rewrite decide_False; [done|]. rewrite length_app. simpl. lia.
Qed.

Lemma replaceContainerImages_app {ContainerRest} (cs1 cs2 : list (Container ContainerRest))
    (images : gmap string string) :
  replaceContainerImages (cs1 ++ cs2) images
  = cs1' ← replaceContainerImages cs1 images;
    cs2' ← replaceContainerImages cs2 images;
    Ok (cs1' ++ cs2').
Proof.
  induction cs1 as [|c cs1 IH]; simpl.
  - by destruct (replaceContainerImages cs2 images).
  - destruct (replaceContainersArgsImage (Args c) images); [|done]. simpl.
    rewrite IH. destruct (replaceContainerImages cs1 images); [|done]. simpl.
    by destruct (replaceContainerImages cs2 images).
Qed.

(** ** The trailing bare flag *)

(** C2 (the code at the failing inputs): in a Deployment that converts to
    the typed form, let a container's argument list end with a bare flag
    whose key is in the table, let no argument before it match a key, and let
    the containers before it go through.  The store to the index after the
    flag is then outside the slice and the transformer panics; it does not
    skip the flag. *)
Theorem DeploymentImages_trailing_bare_flag_panics
    {ContainerRest DeploymentRest : Type}
    (FromUnstructured : Unstructured → result (Deployment ContainerRest DeploymentRest))
    (ToUnstructured : Deployment ContainerRest DeploymentRest → result Unstructured)
    (images : gmap string string) (u : Unstructured)
    (d : Deployment ContainerRest DeploymentRest)
    (before after rewritten : list (Container ContainerRest))
    (c : Container ContainerRest)
    (pre : list string) (flag url : string) :
  GetKind u = "Deployment" →
  FromUnstructured u = Success d →
  Containers d = (before ++ c :: after) →
  replaceContainerImages before images = Ok rewritten →
  Args c = (pre ++ [flag]) →
  (∀ arg, arg ∈ pre → images !! argKey arg = None) →
  bareFlag flag →
  images !! formKey ArgPrefix flag = Some url →
  replaceContainersArgsImage (Args c) images = Panic "index out of range"
  ∧ DeploymentImages FromUnstructured ToUnstructured images u = Panics "index out of range".
Proof.
  intros Hkind Hfrom Hcs Hbefore Hargs Hpre Hbare Hurl.
  assert (replaceContainersArgsImage (Args c) images = Panic "index out of range") as Hpanic.
  { rewrite Hargs. by eapply trailing_bare_flag_rounds. }
  split; [done|].
  unfold DeploymentImages. rewrite decide_False by (by intros ?).
  rewrite Hfrom, Hcs, replaceContainerImages_app, Hbefore. simpl.
  by rewrite Hpanic.
Qed.

Lemma DeploymentImages_trailing_bare_flag_panics_witness :
  replaceContainersArgsImage ["--replicas"] {["arg___replicas" := "v2"]}
    = Panic "index out of range"
  ∧ DeploymentImages
      (λ _, Success (unitDeployment [unitContainer "controller" "img" ["--replicas"]]))
      (λ _, Success ∅)
      {["arg___replicas" := "v2"]}
      {["kind" := VStr "Deployment"]}
    = Panics "index out of range".
Proof.
  apply (DeploymentImages_trailing_bare_flag_panics
           (λ _, Success (unitDeployment [unitContainer "controller" "img" ["--replicas"]]))
           (λ _, Success ∅)
           {["arg___replicas" := "v2"]} {["kind" := VStr "Deployment"]}
           (unitDeployment [unitContainer "controller" "img" ["--replicas"]])
           [] [] [] (unitContainer "controller" "img" ["--replicas"]) [] "--replicas" "v2");
    try reflexivity.
  intros arg Harg. by apply elem_of_nil in Harg.
Defined.

(** ** The two forms of a flag *)

(** The dashes of a flag are kept in its key as underscores. *)
Lemma formKey_replicas : formKey ArgPrefix "--replicas" = "arg___replicas".
Proof. reflexivity. Qed.

(** C4 (as stated, refuted): under the table [{"arg_replicas": "v2"}] the
    flag [--replicas] is looked up as [arg___replicas], which is not in the
    table, so both argument lists come back as they were. *)
Lemma replicas_key_without_dashes_counterexample :
  ¬ (replaceContainerImages [unitContainer "controller" "img" ["--replicas=v1"]]
       {["arg_replicas" := "v2"]}
     = Ok [unitContainer "controller" "img" ["--replicas=v2"]]
     ∧ replaceContainerImages [unitContainer "controller" "img" ["--replicas"; "v1"]]
         {["arg_replicas" := "v2"]}
       = Ok [unitContainer "controller" "img" ["--replicas"; "v2"]]).
Proof. intros [H _]. vm_compute in H. discriminate. Qed.

(** C4 (amended): under the table [{"arg___replicas": "v2"}] the argument
    list [["--replicas=v1"]] of a container becomes [["--replicas=v2"]] and
    the argument list [["--replicas"; "v1"]] becomes [["--replicas"; "v2"]];
    nothing else of the container changes but, when its name is a key of the
    table, its image. *)
Theorem replicas_key_with_dashes {ContainerRest : Type}
    (name image : string) (rest : ContainerRest) :
  let images : gmap string string := {["arg___replicas" := "v2"]} in
  let image' := default image (images !! formKey "" name) in
  replaceContainersArgsImage ["--replicas=v1"] images = Ok ["--replicas=v2"]
  ∧ replaceContainersArgsImage ["--replicas"; "v1"] images = Ok ["--replicas"; "v2"]
  ∧ replaceContainerImages [mkContainer name image ["--replicas=v1"] rest] images
    = Ok [mkContainer name image' ["--replicas=v2"] rest]
  ∧ replaceContainerImages [mkContainer name image ["--replicas"; "v1"] rest] images
    = Ok [mkContainer name image' ["--replicas"; "v2"] rest].
Proof.
  intros images image'.
  assert (replaceContainersArgsImage ["--replicas=v1"] images = Ok ["--replicas=v2"])
    as Heq by reflexivity.
  assert (replaceContainersArgsImage ["--replicas"; "v1"] images = Ok ["--replicas"; "v2"])
    as Hbare by reflexivity.
  repeat split; try done; simpl replaceContainerImages; simpl Args;
    by rewrite ?Heq, ?Hbare.
Qed.

(** ** Tasks without steps *)

(** C3 (the code at the failing inputs): on a ClusterTask without
    [spec.steps] the transformer returns before it looks at [spec.params];
    the document, and with it every param, is left as it was, whatever the
    table holds. *)
Theorem TaskImages_without_steps_skips_params
    (images : gmap string string) (u : Unstructured) :
  GetKind u = "ClusterTask" →
  NestedSlice u ["spec"; "steps"] = NotFound →
  TaskImages images u = Returns u None.
Proof.
  intros Hkind Hsteps. unfold TaskImages.
  rewrite decide_False by (by intros ?). by rewrite Hsteps.
Qed.

Lemma TaskImages_without_steps_skips_params_witness :
  TaskImages {["param_builder" := "new"]} taskWithoutSteps = Returns taskWithoutSteps None.
Proof.
  apply (TaskImages_without_steps_skips_params {["param_builder" := "new"]} taskWithoutSteps);
    reflexivity.
Defined.

(** With [spec.steps] there, even empty, the same param is rewritten. *)
Example TaskImages_with_steps_rewrites_params :
  TaskImages {["param_builder" := "new"]}
    (<["kind" := VStr "ClusterTask"]>
      {["spec" := VMap (<["steps" := VSlice []]> {["params" :=
          VSlice [VMap (<["name" := VStr "builder"]> {["default" := VStr "old"]})]]})]})
  = Returns
      (<["kind" := VStr "ClusterTask"]>
        {["spec" := VMap (<["steps" := VSlice []]> {["params" :=
            VSlice [VMap (<["name" := VStr "builder"]> {["default" := VStr "new"]})]]})]})
      None.
Proof. vm_compute. reflexivity. Qed.

(** ** A webhook service that is not a mapping *)

(** C5 (the code at the failing inputs): for a CRD whose
    [spec.conversion.webhookClientConfig.service] is there and is not a
    mapping, the unchecked type assertion panics; no error is returned. *)
Theorem webhook_service_not_a_map_panics
    (targetNamespace : string) (u : Unstructured) (service : value) :
  ToLower (GetKind u) = "customresourcedefinition" →
  NestedFieldNoCopy u webhookServicePath = Found service →
  ¬ isMap service →
  injectNamespaceCRDWebhookClientConfig targetNamespace u = Panics "interface conversion".
Proof.
  intros Hkind Hservice Hmap. unfold injectNamespaceCRDWebhookClientConfig.
  rewrite decide_False by (by intros ?). rewrite Hservice.
  by destruct service; simpl in Hmap.
Qed.

Lemma webhook_service_not_a_map_panics_witness :
  injectNamespaceCRDWebhookClientConfig "tekton-pipelines" crdWithStringService
  = Panics "interface conversion".
Proof.
  apply (webhook_service_not_a_map_panics "tekton-pipelines" crdWithStringService
           (VStr "tekton-pipelines-webhook")).
  - reflexivity.
  - reflexivity.
  - simpl. tauto.
Defined.

(** One field up, a value that is not a mapping comes back as an error. *)
Example webhook_config_not_a_map_fails :
  injectNamespaceCRDWebhookClientConfig "tekton-pipelines" crdWithStringConfig
  = Returns crdWithStringConfig (Some sampleError).
Proof. reflexivity. Qed.

(** ** Values with an equals sign *)

(** C6 (the code at the failing inputs): of an entry [prefix ++ name ++ "="
    ++ value] the table holds, under [name], the part of [value] before its
    first ["="]; that is [value] itself only when [value] has no ["="]. *)
Theorem ImagesFromEnv_cuts_value_at_equals (prefix name value : string) :
  containsByte "=" prefix = false →
  containsByte "=" name = false →
  ImagesFromEnv [prefix +:+ name +:+ "=" +:+ value] prefix
  = Ok {[name := default "" (Split value "=" !! 0)]}
  ∧ (containsByte "=" value = true → default "" (Split value "=" !! 0) ≠ value).
Proof.
  intros Hprefix Hname. split.
  - assert (Split (prefix +:+ name +:+ "=" +:+ value) "="
            = (prefix +:+ name) :: Split value "=") as Hsplit.
    { rewrite <-(Split_append (prefix +:+ name) value "=")
        by by apply containsByte_append_false.
      f_equal. apply (append_associative prefix name (String "=" value)). }
    unfold ImagesFromEnv. cbn [envRounds]. rewrite HasPrefix_append, Hsplit. cbn [negb].
    pose proof (Split_nonempty value "=") as Hne.
    destruct (Split value "=") as [|piece pieces]; [done|]. simpl.
    by rewrite TrimPrefix_append, insert_empty.
  - intros Hvalue Heq.
    destruct (Split value "=") as [|piece pieces] eqn:Hsplit; simpl in Heq.
    + by apply Split_nonempty in Hsplit.
    + apply Split_head_without in Hsplit. congruence.
Qed.

Lemma ImagesFromEnv_cuts_value_at_equals_witness :
  ImagesFromEnv ["IMAGE_PIPELINES_CONTROLLER=registry/controller@sha=1"] PipelinesImagePrefix
  = Ok {["CONTROLLER" := "registry/controller@sha"]}
  ∧ "registry/controller@sha" ≠ "registry/controller@sha=1".
Proof.
  pose proof (ImagesFromEnv_cuts_value_at_equals
                PipelinesImagePrefix "CONTROLLER" "registry/controller@sha=1"
                eq_refl eq_refl) as [Htable Hcut].
  split; [exact Htable|]. apply Hcut. reflexivity.
Defined.

(** ** The preserve-namespace annotation *)

(** The annotations of a document whose [metadata.annotations] is a map of
    strings are that map. *)
Lemma GetAnnotations_strings (u : Unstructured) (m : gmap string value)
    (key val : string) :
  NestedFieldNoCopy u ["metadata"; "annotations"] = Found (VMap m) →
  map_Forall (λ _ v, is_Some (asString v)) m →
  m !! key = Some (VStr val) →
  GetAnnotations u !! key = Some val.
Proof.
  intros Hfound Hstrings Hkey. unfold GetAnnotations, NestedStringMap.
  rewrite Hfound, decide_True by done. by rewrite lookup_omap, Hkey.
Qed.



(** ** The typed round trip of a Deployment *)

Lemma replaceContainersArgsImage_empty (args : list string) :
  replaceContainersArgsImage args ∅ = Ok args.
Proof.
  apply argsRounds_no_match; [simpl; lia|]. intros. apply lookup_empty.
Qed.

Lemma replaceContainerImages_empty {ContainerRest} (cs : list (Container ContainerRest)) :
  replaceContainerImages cs ∅ = Ok cs.
Proof.
  induction cs as [|c cs IH]; simpl; [done|].
  rewrite replaceContainersArgsImage_empty, IH, lookup_empty. simpl. by destruct c.
Qed.

Lemma DeploymentImages_typed
    {ContainerRest DeploymentRest : Type}
    (FromUnstructured : Unstructured → result (Deployment ContainerRest DeploymentRest))
    (ToUnstructured : Deployment ContainerRest DeploymentRest → result Unstructured)
    (images : gmap string string) (u : Unstructured)
    (d : Deployment ContainerRest DeploymentRest) :
  GetKind u = "Deployment" →
  FromUnstructured u = Success d →
  DeploymentImages FromUnstructured ToUnstructured images u
  = match replaceContainerImages (Containers d) images with
    | Panic msg => Panics msg
    | Ok containers =>
        match ToUnstructured (mkDeployment containers (deploymentRest d)) with
        | Failure err => Returns u (Some err)
        | Success unstrObj => Returns unstrObj None
        end
    end.
Proof.
  intros Hkind Hfrom. unfold DeploymentImages.
  rewrite decide_False by (by intros ?). by rewrite Hfrom.
Qed.

(** C9: on a document of kind [Deployment] that converts to the typed form
    [d], the content the transformer leaves behind is the conversion back of
    [d] with its containers rewritten, and with the empty table the
    conversion back of [d] itself; so two documents with the same typed form
    are left with the same content, whatever else they held.  A document
    that does not convert is left as it was, with the converter's error. *)
Theorem DeploymentImages_round_trip
    {ContainerRest DeploymentRest : Type}
    (FromUnstructured : Unstructured → result (Deployment ContainerRest DeploymentRest))
    (ToUnstructured : Deployment ContainerRest DeploymentRest → result Unstructured)
    (images : gmap string string) (u : Unstructured) :
  GetKind u = "Deployment" →
  (∀ err, FromUnstructured u = Failure err →
     DeploymentImages FromUnstructured ToUnstructured images u = Returns u (Some err))
  ∧ (∀ d, FromUnstructured u = Success d →
       (∀ unstrObj, ToUnstructured d = Success unstrObj →
          DeploymentImages FromUnstructured ToUnstructured ∅ u = Returns unstrObj None)
       ∧ (∀ containers unstrObj,
            replaceContainerImages (Containers d) images = Ok containers →
            ToUnstructured (mkDeployment containers (deploymentRest d)) = Success unstrObj →
            DeploymentImages FromUnstructured ToUnstructured images u = Returns unstrObj None)
       ∧ (∀ u' unstrObj,
            GetKind u' = "Deployment" →
            FromUnstructured u' = Success d →
            DeploymentImages FromUnstructured ToUnstructured images u = Returns unstrObj None →
            DeploymentImages FromUnstructured ToUnstructured images u'
            = Returns unstrObj None)).
Proof.
  intros Hkind. split.
  { intros err Hfrom. unfold DeploymentImages.
    rewrite decide_False by (by intros ?). by rewrite Hfrom. }
  intros d Hfrom. split; [|split].
  - intros unstrObj Hto.
    rewrite (DeploymentImages_typed _ _ _ _ d Hkind Hfrom), replaceContainerImages_empty.
    destruct d as [cs rest]; simpl in *. by rewrite Hto.
  - intros containers unstrObj Hcs Hto.
    by rewrite (DeploymentImages_typed _ _ _ _ d Hkind Hfrom), Hcs, Hto.
  - intros u' unstrObj Hkind' Hfrom'.
    rewrite (DeploymentImages_typed _ _ _ _ d Hkind Hfrom).
    rewrite (DeploymentImages_typed _ _ _ _ d Hkind' Hfrom').
    destruct (replaceContainerImages (Containers d) images) as [containers|]; [|done].
    by destruct (ToUnstructured _) as [o|err].
Qed.

Lemma DeploymentImages_round_trip_witness :
  DeploymentImages sampleFromUnstructured sampleToUnstructured ∅
    (sampleDeployment {["unknownField" := VInt 7]} ["--replicas=v1"])
  = Returns (sampleDeployment ∅ ["--replicas=v1"]) None
  ∧ DeploymentImages sampleFromUnstructured sampleToUnstructured {["arg___replicas" := "v2"]}
      (sampleDeployment {["unknownField" := VInt 7]} ["--replicas=v1"])
    = Returns (sampleDeployment ∅ ["--replicas=v2"]) None
  ∧ DeploymentImages sampleFromUnstructured sampleToUnstructured {["arg___replicas" := "v2"]}
      (sampleDeployment {["otherField" := VBool true]} ["--replicas=v1"])
    = Returns (sampleDeployment ∅ ["--replicas=v2"]) None.
Proof.
  pose proof (DeploymentImages_round_trip sampleFromUnstructured sampleToUnstructured
                {["arg___replicas" := "v2"]}
                (sampleDeployment {["unknownField" := VInt 7]} ["--replicas=v1"])
                eq_refl) as [_ Htyped].
  destruct (Htyped (mkDeployment [unitContainer "controller" "img" ["--replicas=v1"]] None)
              eq_refl) as (Hempty & Htable & Hsame).
  assert (DeploymentImages sampleFromUnstructured sampleToUnstructured
            {["arg___replicas" := "v2"]}
            (sampleDeployment {["unknownField" := VInt 7]} ["--replicas=v1"])
          = Returns (sampleDeployment ∅ ["--replicas=v2"]) None) as Hrun.
  { apply (Htable [unitContainer "controller" "img" ["--replicas=v2"]]); reflexivity. }
  split; [|split].
  - apply Hempty. reflexivity.
  - exact Hrun.
  - apply Hsame; [reflexivity | reflexivity | exact Hrun].
Defined.

(** ** Abort on the first error *)

Lemma transformResource_app (pre post : list (option Transformer)) (spec : Unstructured) :
  mf.transformResource (pre ++ post) spec
  = match mf.transformResource pre spec with
    | Returns spec' None => mf.transformResource post spec'
    | other => other
    end.
Proof.
  revert spec. induction pre as [|[t|] pre IH]; intros spec; simpl; [done| |done].
  destruct (t spec) as [spec' [err|]|msg]; done.
Qed.

(** The error of the first transformer that fails on a resource is the
    error of the whole chain on it. *)
Lemma transformResource_first_error (pre post : list (option Transformer))
    (t : Transformer) (spec spec0 spec' : Unstructured) (err : error) :
  mf.transformResource pre spec = Returns spec0 None →
  t spec0 = Returns spec' (Some err) →
  mf.transformResource (pre ++ Some t :: post) spec = Returns spec' (Some err).
Proof.
  intros Hpre Ht. rewrite transformResource_app, Hpre. simpl. by rewrite Ht.
Qed.

Lemma transformResources_first_error (fns : list (option Transformer))
    (before after : list Unstructured) (spec spec' : Unstructured) (err : error) :
  Forall (λ r, ∃ r', mf.transformResource fns r = Returns r' None) before →
  mf.transformResource fns spec = Returns spec' (Some err) →
  mf.transformResources fns (before ++ spec :: after) = Ok (Failure err).
Proof.
  intros Hbefore Hspec. induction Hbefore as [|r before [r' Hr] _ IH]; simpl.
  - by rewrite Hspec.
  - by rewrite Hr, IH.
Qed.

Lemma transformResources_success (fns : list (option Transformer))
    (rs rs' : list Unstructured) :
  mf.transformResources fns rs = Ok (Success rs') →
  Forall2 (λ r r', mf.transformResource fns r = Returns r' None) rs rs'.
Proof.
  revert rs'. induction rs as [|r rs IH]; intros rs'; simpl.
  - intros [= <-]. constructor.
  - destruct (mf.transformResource fns r) as [r1 [err|]|msg] eqn:Hr; try done.
    destruct (mf.transformResources fns rs) as [[rs1|err]|msg]; try done.
    intros [= <-]. constructor; [done|]. by apply IH.
Qed.

(** C1: let a transformer of the pipeline return an error on a resource,
    after the transformers before it went through on that resource and all
    transformers went through on the resources before it.  Then [Transform]
    returns that error, marks the install as failed and leaves the manifest
    behind the caller's pointer as it was.  Whenever [Transform] does not
    return nil the manifest is as it was; when it returns nil the manifest
    holds, for each resource, what the whole chain of transformers made of
    it. *)
Theorem Transform_error_keeps_manifest
    (InjectOwner : TektonComponent → Transformer)
    (InjectNamespace : string → Transformer)
    (w : world) (extra : list (option Transformer)) :
  let fns := transformers InjectOwner InjectNamespace (instance w) ++ extra in
  (∀ before spec after pre t post spec0 spec' err,
     mf.resources (manifest w) = before ++ spec :: after →
     Forall (λ r, ∃ r', mf.transformResource fns r = Returns r' None) before →
     fns = pre ++ Some t :: post →
     mf.transformResource pre spec = Returns spec0 None →
     t spec0 = Returns spec' (Some err) →
     Transform InjectOwner InjectNamespace w extra
     = (mkWorld (manifest w) (MarkInstallFailed err (instance w)), Ok (Some err)))
  ∧ (∀ w' r,
       Transform InjectOwner InjectNamespace w extra = (w', r) →
       r ≠ Ok None →
       manifest w' = manifest w)
  ∧ (∀ w',
       Transform InjectOwner InjectNamespace w extra = (w', Ok None) →
       instance w' = instance w
       ∧ Forall2 (λ r r', mf.transformResource fns r = Returns r' None)
           (mf.resources (manifest w)) (mf.resources (manifest w'))).
Proof.
  intros fns. unfold Transform, mf.Transform. fold fns. split; [|split].
  - intros before spec after pre t post spec0 spec' err Hrs Hbefore Hfns Hpre Ht.
    rewrite Hrs.
    rewrite (transformResources_first_error fns before after spec spec' err Hbefore); [done|].
    rewrite Hfns. by eapply transformResource_first_error.
  - intros w' r Hrun Hr.
    destruct (mf.transformResources fns (mf.resources (manifest w))) as [[rs|err]|msg];
      injection Hrun as <- <-; done.
  - intros w' Hrun.
    destruct (mf.transformResources fns (mf.resources (manifest w))) as [[rs|err]|msg] eqn:Hrs;
      try done.
    injection Hrun as <-. split; [done|]. by apply transformResources_success.
Qed.

Lemma Transform_error_keeps_manifest_witness :
  Transform sampleInjectOwner sampleInjectNamespace sampleWorld [Some (TaskImages ∅)]
  = (mkWorld (manifest sampleWorld) (mkComponent "tekton-pipelines" (Some sampleError)),
     Ok (Some sampleError)).
Proof.
  pose proof (Transform_error_keeps_manifest sampleInjectOwner sampleInjectNamespace
                sampleWorld [Some (TaskImages ∅)]) as (Hfirst & _ & _).
  eapply (Hfirst [annotated "true"] crdWithStringConfig [annotated "false"]
            [Some (sampleInjectOwner (instance sampleWorld));
             Some (injectNamespaceConditional sampleInjectNamespace AnnotationPreserveNS
                     "tekton-pipelines")]
            (injectNamespaceCRDWebhookClientConfig "tekton-pipelines")
            [Some (TaskImages ∅)]).
  - reflexivity.
  - constructor; [|constructor]. eexists. reflexivity.
  - reflexivity.
  - reflexivity.
  - reflexivity.
Defined.

(** ** What the task transformer writes *)

Lemma replaceStepImage_writesOnly (override : gmap string string) (s : value) :
  isMap s →
  ∃ s', replaceStepImage override s = Ok s' ∧ writesOnly "image" "" override s s'.
Proof.
  destruct s as [| | | | | |step]; try done. intros _. unfold replaceStepImage, writesOnly.
  destruct (step !! "name") as [[| | | |name| |]|] eqn:Hname;
    try (eexists; split; [done|]; exists step, step; by rewrite Hname).
  destruct (override !! formKey "" name) as [image|] eqn:Himage;
    [|eexists; split; [done|]; exists step, step; by rewrite Hname, Himage].
  destruct (decide (image = "")) as [->|Hne].
  - eexists; split; [done|]. exists step, step. rewrite Hname, Himage. by rewrite decide_True.
  - eexists; split; [done|]. exists step, (<["image" := VStr image]> step).
    rewrite Hname, Himage, decide_False by done.
    repeat split; [|by rewrite lookup_insert_eq].
    intros k Hk. by rewrite lookup_insert_ne.
Qed.

Lemma replaceParamImage_writesOnly (override : gmap string string) (p : value) :
  isMap p →
  ∃ p', replaceParamImage override p = Ok p' ∧ writesOnly "default" ParamPrefix override p p'.
Proof.
  destruct p as [| | | | | |param]; try done. intros _. unfold replaceParamImage, writesOnly.
  destruct (param !! "name") as [[| | | |name| |]|] eqn:Hname;
    try (eexists; split; [done|]; exists param, param; by rewrite Hname).
  destruct (override !! formKey ParamPrefix name) as [image|] eqn:Himage;
    [|eexists; split; [done|]; exists param, param; by rewrite Hname, Himage].
  destruct (decide (image = "")) as [->|Hne].
  - eexists; split; [done|]. exists param, param. rewrite Hname, Himage. by rewrite decide_True.
  - eexists; split; [done|]. exists param, (<["default" := VStr image]> param).
    rewrite Hname, Himage, decide_False by done.
    repeat split; [|by rewrite lookup_insert_eq].
    intros k Hk. by rewrite lookup_insert_ne.
Qed.

Lemma replaceStepsImages_writesOnly (override : gmap string string) (steps : list value) :
  Forall isMap steps →
  ∃ steps', replaceStepsImages steps override = Ok steps'
            ∧ Forall2 (writesOnly "image" "" override) steps steps'.
Proof.
  induction 1 as [|s steps Hs _ (steps' & Hrun & Hall)]; simpl.
  - exists []. by split; [|constructor].
  - destruct (replaceStepImage_writesOnly override s Hs) as (s' & -> & Hone).
    rewrite Hrun. exists (s' :: steps'). by split; [|constructor].
Qed.

Lemma replaceParamsImage_writesOnly (override : gmap string string) (params : list value) :
  Forall isMap params →
  ∃ params', replaceParamsImage params override = Ok params'
             ∧ Forall2 (writesOnly "default" ParamPrefix override) params params'.
Proof.
  induction 1 as [|p params Hp _ (params' & Hrun & Hall)]; simpl.
  - exists []. by split; [|constructor].
  - destruct (replaceParamImage_writesOnly override p Hp) as (p' & -> & Hone).
    rewrite Hrun. exists (p' :: params'). by split; [|constructor].
Qed.

(** A slice found two fields down sits in a map under the first field. *)
Lemma NestedSlice_two_inv (u : Unstructured) (f1 f2 : string) (l : list value) :
  NestedSlice u [f1; f2] = Found l →
  ∃ m : gmap string value, u !! f1 = Some (VMap m) ∧ m !! f2 = Some (VSlice l).
Proof.
  unfold NestedSlice, NestedFieldNoCopy. simpl.
  destruct (u !! f1) as [[| | | | | |m]|] eqn:H1; try done.
  destruct (m !! f2) as [[| | | | |l'|]|] eqn:H2; try done.
  intros [= ->]. by exists m.
Qed.

Lemma NestedSlice_two (u : Unstructured) (f1 f2 : string) (m : gmap string value)
    (l : list value) :
  u !! f1 = Some (VMap m) → m !! f2 = Some (VSlice l) →
  NestedSlice u [f1; f2] = Found l.
Proof.
  intros H1 H2. unfold NestedSlice, NestedFieldNoCopy. simpl. by rewrite H1, H2.
Qed.

Lemma SetNestedField_two (u : Unstructured) (val : value) (f1 f2 : string)
    (m : gmap string value) :
  u !! f1 = Some (VMap m) →
  SetNestedField u val f1 [f2] = Success (<[f1 := VMap (<[f2 := val]> m)]> u).
Proof. intros H1. unfold SetNestedField. simpl. by rewrite H1. Qed.



Example TaskImages_sample :
  TaskImages sampleOverride sampleTask
  = Returns
      (<["kind" := VStr "ClusterTask"]>
        {["spec" := VMap
           (<["steps" := VSlice
                [ VMap (<["name" := VStr "Build-Push"]>
                         (<["image" := VStr "new"]> {["script" := VStr "make"]}));
                  VMap (<["name" := VStr "report"]> {["image" := VStr "keep"]});
                  VMap {["image" := VStr "unnamed"]} ]]>
             (<["params" := VSlice
                  [ VMap (<["name" := VStr "BUILDER"]> {["default" := VStr "newer"]});
                    VMap (<["name" := VStr "verbose"]> {["default" := VStr "false"]}) ]]>
               {["description" := VStr "builds"]}))]})
      None.
Proof. vm_compute. reflexivity. Qed.

(** ** Running the argument rewrite again *)


Lemma argsRounds_S (images : gmap string string) (n a : nat) (args : list string) :
  argsRounds images (S n) a args
  = match args !! a with
    | None => Panic "index out of range"
    | Some arg =>
        if (splitsByEqual arg).2 then
          let flag := default "" ((splitsByEqual arg).1 !! 0) in
          match images !! formKey ArgPrefix flag with
          | Some url => argsRounds images n (S a) (<[a := flag +:+ "=" +:+ url]> args)
          | None => argsRounds images n (S a) args
          end
        else
          match images !! formKey ArgPrefix arg with
          | Some url =>
              if decide (S a < length args)
              then argsRounds images n (S a) (<[S a := url]> args)
              else Panic "index out of range"
          | None => argsRounds images n (S a) args
          end
    end.
Proof. simpl. destruct (args !! a) as [arg|]; [|done]. by destruct (splitsByEqual arg) as [? [|]]. Qed.

Lemma scanArgs_rounds (images : gmap string string) (rest pre : list string) (x : string) :
  argsRounds images (S (length rest)) (length pre) (pre ++ x :: rest)
  = tail ← scanArgs images x rest; Ok (pre ++ tail).
Proof.
  revert pre x. induction rest as [|y rest IH]; intros pre x.
  - simpl. rewrite list_lookup_middle by done.
    unfold rewriteAssigned. destruct (splitsByEqual x) as [argVal [|]]; simpl.
    + destruct (images !! _); simpl; [|done].
      by rewrite insert_app_r_alt, Nat.sub_diag by lia.
    + destruct (images !! _); simpl; [|done].
      rewrite decide_False; [done|]. rewrite length_app. simpl. lia.
  - rewrite argsRounds_S. cbn [length]. rewrite list_lookup_middle by done.
    assert (∀ x', argsRounds images (S (length rest)) (S (length pre)) (pre ++ x' :: y :: rest)
                  = tail ← scanArgs images y rest; Ok (pre ++ x' :: tail)) as Hnext.
    { intros x'. replace (pre ++ x' :: y :: rest) with ((pre ++ [x']) ++ y :: rest)
        by by rewrite <-app_assoc.
      replace (S (length pre)) with (length (pre ++ [x'])) by (rewrite length_app; simpl; lia).
      rewrite IH. destruct (scanArgs images y rest); simpl; [|done].
      by rewrite <-app_assoc. }
    cbn [scanArgs]. unfold rewriteAssigned.
    destruct (splitsByEqual x) as [argVal [|]]; cbn [fst snd].
    + destruct (images !! _); cbn zeta.
      * rewrite insert_app_r_alt, Nat.sub_diag by lia. cbn [insert list_insert].
        rewrite Hnext. by destruct (scanArgs images y rest).
      * rewrite Hnext. by destruct (scanArgs images y rest).
    + destruct (images !! _) as [url|].
      * rewrite decide_True by (rewrite length_app; simpl; lia).
        replace (<[S (length pre):=url]> (pre ++ x :: y :: rest))
          with ((pre ++ [x]) ++ url :: rest).
        2:{ rewrite insert_app_r_alt by lia.
            replace (S (length pre) - length pre) with 1 by lia.
            by rewrite <-app_assoc. }
        replace (S (length pre)) with (length (pre ++ [x])) by (rewrite length_app; simpl; lia).
        rewrite IH. destruct (scanArgs images url rest); simpl; [|done].
        by rewrite <-app_assoc.
      * rewrite Hnext. by destruct (scanArgs images y rest).
Qed.

Lemma replaceContainersArgsImage_scan (images : gmap string string) (args : list string) :
  replaceContainersArgsImage args images
  = match args with
    | [] => Ok []
    | x :: rest => scanArgs images x rest
    end.
Proof.
  destruct args as [|x rest]; [done|]. unfold replaceContainersArgsImage.
  change (argsRounds images (S (length rest)) (length (@nil string)) ([] ++ x :: rest)
          = scanArgs images x rest).
  rewrite scanArgs_rounds. by destruct (scanArgs images x rest).
Qed.

Lemma splitsByEqual_fst (arg : string) : (splitsByEqual arg).1 = Split arg "=".
Proof. unfold splitsByEqual. by destruct (decide _). Qed.

Lemma splitsByEqual_snd (arg : string) :
  (splitsByEqual arg).2 = true ↔ length (Split arg "=") = 2.
Proof. unfold splitsByEqual. destruct (decide _); simpl; naive_solver. Qed.

(** Where the table has no key with an equals sign, the rewrite of a
    [flag=value] argument is either again of that form and its own rewrite,
    or reads as a bare flag whose key the table does not hold. *)
Lemma rewriteAssigned_again (images : gmap string string) (x : string) :
  keysWithoutEquals images →
  (splitsByEqual x).2 = true →
  ((splitsByEqual (rewriteAssigned images x)).2 = true
   ∧ rewriteAssigned images (rewriteAssigned images x) = rewriteAssigned images x)
  ∨ ((splitsByEqual (rewriteAssigned images x)).2 = false
     ∧ images !! formKey ArgPrefix (rewriteAssigned images x) = None).
Proof.
  intros Hkeys Hx. apply splitsByEqual_snd in Hx.
  destruct (Split x "=") as [|flag [|val [|]]] eqn:Hsplit; try done.
  pose proof (Split_head_without _ _ _ _ Hsplit) as Hflag.
  assert (rewriteAssigned images x
          = match images !! formKey ArgPrefix flag with
            | Some url => flag +:+ "=" +:+ url
            | None => x
            end) as Hrw.
  { unfold rewriteAssigned. by rewrite splitsByEqual_fst, Hsplit. }
  destruct (images !! formKey ArgPrefix flag) as [url|] eqn:Hurl; rewrite Hrw.
  - assert (Split (flag +:+ "=" +:+ url) "=" = flag :: Split url "=") as Hnew
        by by apply (Split_append flag url).
    destruct (containsByte "=" url) eqn:Hc.
    + right. split.
      * apply not_true_is_false. rewrite splitsByEqual_snd, Hnew.
        apply Split_with in Hc. simpl. lia.
      * destruct (images !! formKey ArgPrefix (flag +:+ "=" +:+ url)) as [url'|] eqn:Hk; [|done].
        apply Hkeys in Hk. rewrite formKey_keeps_equals in Hk; [done|].
        by apply containsByte_append.
    + left. rewrite (Split_without _ _ Hc) in Hnew. split.
      * by rewrite splitsByEqual_snd, Hnew.
      * unfold rewriteAssigned. rewrite splitsByEqual_fst, Hnew. simpl. by rewrite Hurl.
  - left. split.
    + by rewrite splitsByEqual_snd, Hsplit.
    + unfold rewriteAssigned. rewrite splitsByEqual_fst, Hsplit. simpl. by rewrite Hurl.
Qed.

(** What a run leaves behind, a second run leaves as it is. *)
Lemma scanArgs_again (images : gmap string string) :
  keysWithoutEquals images →
  ∀ (rest : list string) (x : string) (out : list string),
    scanArgs images x rest = Ok out →
    ∃ w tl, out = w :: tl
            ∧ scanArgs images w tl = Ok out
            ∧ scanArgs images x tl = Ok out.
Proof.
  intros Hkeys. induction rest as [|y rest IH]; intros x out; cbn [scanArgs].
  - destruct ((splitsByEqual x).2) eqn:Hx.
    + intros [= <-]. eexists _, []. split; [done|]. cbn [scanArgs]. rewrite Hx. split; [|done].
      destruct (rewriteAssigned_again images x Hkeys Hx) as [[-> ->]|[-> ->]]; done.
    + destruct (images !! formKey ArgPrefix x) eqn:Hk; [done|].
      intros [= <-]. eexists _, []. split; [done|]. cbn [scanArgs]. by rewrite Hx, Hk.
  - destruct ((splitsByEqual x).2) eqn:Hx.
    + destruct (scanArgs images y rest) as [out2|] eqn:Hy; [|done].
      destruct (IH y out2 Hy) as (w2 & tl2 & -> & Hw2 & _).
      intros [= <-]. eexists _, _. split; [done|]. cbn [scanArgs]. rewrite Hx, Hw2.
      split; [|done].
      destruct (rewriteAssigned_again images x Hkeys Hx) as [[-> ->]|[-> ->]]; done.
    + destruct (images !! formKey ArgPrefix x) as [url|] eqn:Hk.
      * destruct (scanArgs images url rest) as [out2|] eqn:Hu; [|done].
        destruct (IH url out2 Hu) as (w2 & tl2 & -> & _ & Hu2).
        intros [= <-]. eexists _, _. split; [done|]. cbn [scanArgs]. by rewrite Hx, Hk, Hu2.
      * destruct (scanArgs images y rest) as [out2|] eqn:Hy; [|done].
        destruct (IH y out2 Hy) as (w2 & tl2 & -> & Hw2 & _).
        intros [= <-]. eexists _, _. split; [done|]. cbn [scanArgs]. by rewrite Hx, Hk, Hw2.
Qed.

Lemma replaceContainersArgsImage_again (images : gmap string string) (args out : list string) :
  keysWithoutEquals images →
  replaceContainersArgsImage args images = Ok out →
  replaceContainersArgsImage out images = Ok out.
Proof.
  intros Hkeys. rewrite !replaceContainersArgsImage_scan.
  destruct args as [|x rest]; [by intros [= <-]|].
  intros Hrun. by destruct (scanArgs_again images Hkeys rest x out Hrun) as (w & tl & -> & ? & _).
Qed.

Lemma replaceContainerImages_again {ContainerRest} (images : gmap string string)
    (cs out : list (Container ContainerRest)) :
  keysWithoutEquals images →
  replaceContainerImages cs images = Ok out →
  replaceContainerImages out images = Ok out.
Proof.
  intros Hkeys. revert out. induction cs as [|c cs IH]; intros out; simpl.
  - by intros [= <-].
  - destruct (replaceContainersArgsImage (Args c) images) as [args|] eqn:Hargs; [|done].
    destruct (replaceContainerImages cs images) as [rest|] eqn:Hrest; [|done].
    simpl. intros [= <-]. simpl.
    rewrite (replaceContainersArgsImage_again images _ _ Hkeys Hargs), (IH rest eq_refl).
    simpl. do 3 f_equal. by destruct (images !! formKey "" (Name c)) as [url|].
Qed.

(** Tables built from the environment have no key with an equals sign. *)
Lemma dropBytes_without (c : ascii) (n : nat) (s : string) :
  containsByte c s = false → containsByte c (dropBytes n s) = false.
Proof.
  revert s. induction n as [|n IH]; intros s; simpl; [by destruct s|].
  destruct s as [|c' s]; simpl; [done|].
  destruct (decide (c' = c)); [done|]. apply IH.
Qed.

Lemma envRounds_keysWithoutEquals (prefix : string) (environ : list string)
    (images images' : gmap string string) :
  keysWithoutEquals images →
  envRounds prefix environ images = Ok images' →
  keysWithoutEquals images'.
Proof.
  revert images. induction environ as [|env environ IH]; intros images Hkeys; simpl.
  - by intros [= <-].
  - destruct (negb (HasPrefix env prefix)); [by apply IH|].
    destruct (Split env "=") as [|key [|url pieces]] eqn:Hsplit; simpl; try done.
    apply IH. apply map_Forall_insert_2; [|done].
    apply Split_head_without in Hsplit.
    unfold TrimPrefix. destruct (HasPrefix key prefix); [|done].
    by apply dropBytes_without.
Qed.

Lemma ImagesFromEnv_keysWithoutEquals (environ : list string) (prefix : string)
    (images : gmap string string) :
  ImagesFromEnv environ prefix = Ok images → keysWithoutEquals images.
Proof. apply envRounds_keysWithoutEquals, map_Forall_empty. Qed.

(** ** Running the task transformer again *)

Lemma replaceStepImage_again (override : gmap string string) (s s' : value) :
  replaceStepImage override s = Ok s' → replaceStepImage override s' = Ok s'.
Proof.
  unfold replaceStepImage. destruct s as [| | | | | |step]; try done.
  destruct (step !! "name") as [[| | | |name| |]|] eqn:Hname;
    try (intros [= <-]; by rewrite Hname).
  destruct (override !! formKey "" name) as [image|] eqn:Himage;
    [|intros [= <-]; by rewrite Hname, Himage].
  destruct (decide (image = "")) as [->|Hne].
  - intros [= <-]. rewrite Hname, Himage. by rewrite decide_True.
  - intros [= <-]. rewrite lookup_insert_ne, Hname, Himage by done.
    rewrite decide_False by done. by rewrite insert_insert_eq.
Qed.

Lemma replaceParamImage_again (override : gmap string string) (p p' : value) :
  replaceParamImage override p = Ok p' → replaceParamImage override p' = Ok p'.
Proof.
  unfold replaceParamImage. destruct p as [| | | | | |param]; try done.
  destruct (param !! "name") as [[| | | |name| |]|] eqn:Hname;
    try (intros [= <-]; by rewrite Hname).
  destruct (override !! formKey ParamPrefix name) as [image|] eqn:Himage;
    [|intros [= <-]; by rewrite Hname, Himage].
  destruct (decide (image = "")) as [->|Hne].
  - intros [= <-]. rewrite Hname, Himage. by rewrite decide_True.
  - intros [= <-]. rewrite lookup_insert_ne, Hname, Himage by done.
    rewrite decide_False by done. by rewrite insert_insert_eq.
Qed.

Lemma replaceStepsImages_again (override : gmap string string) (steps steps' : list value) :
  replaceStepsImages steps override = Ok steps' →
  replaceStepsImages steps' override = Ok steps'.
Proof.
  revert steps'. induction steps as [|s steps IH]; intros steps'; simpl.
  - by intros [= <-].
  - destruct (replaceStepImage override s) as [s1|] eqn:Hs; [|done].
    destruct (replaceStepsImages steps override) as [steps1|] eqn:Hsteps; [|done].
    simpl. intros [= <-]. simpl.
    by rewrite (replaceStepImage_again _ _ _ Hs), (IH _ eq_refl).
Qed.

Lemma replaceParamsImage_again (override : gmap string string) (params params' : list value) :
  replaceParamsImage params override = Ok params' →
  replaceParamsImage params' override = Ok params'.
Proof.
  revert params'. induction params as [|p params IH]; intros params'; simpl.
  - by intros [= <-].
  - destruct (replaceParamImage override p) as [p1|] eqn:Hp; [|done].
    destruct (replaceParamsImage params override) as [params1|] eqn:Hparams; [|done].
    simpl. intros [= <-]. simpl.
    by rewrite (replaceParamImage_again _ _ _ Hp), (IH _ eq_refl).
Qed.

Lemma GetKind_lookup (u u' : Unstructured) :
  u' !! "kind" = u !! "kind" → GetKind u' = GetKind u.
Proof.
  intros H. unfold GetKind, NestedString, NestedFieldNoCopy. simpl. by rewrite H.
Qed.

Lemma SetNestedField_two_same (u : Unstructured) (val : value) (f1 f2 : string)
    (m : gmap string value) :
  u !! f1 = Some (VMap m) → m !! f2 = Some val →
  SetNestedField u val f1 [f2] = Success u.
Proof.
  intros H1 H2. rewrite (SetNestedField_two _ _ _ _ m H1).
  by rewrite (insert_id m), (insert_id u).
Qed.

(** The shape of a run of [TaskImages] that returns nil. *)
Lemma TaskImages_nil_inv (images : gmap string string) (u u' : Unstructured) :
  TaskImages images u = Returns u' None →
  (GetKind u ≠ "ClusterTask" ∧ u' = u)
  ∨ (GetKind u = "ClusterTask" ∧
     ((NestedSlice u ["spec"; "steps"] = NotFound ∧ u' = u)
      ∨ ∃ (spec : gmap string value) (steps steps' : list value),
          u !! "spec" = Some (VMap spec)
          ∧ spec !! "steps" = Some (VSlice steps)
          ∧ replaceStepsImages steps images = Ok steps'
          ∧ ((NestedSlice u ["spec"; "params"] = NotFound
              ∧ u' = <["spec" := VMap (<["steps" := VSlice steps']> spec)]> u)
             ∨ ∃ params params' : list value,
                 spec !! "params" = Some (VSlice params)
                 ∧ replaceParamsImage params images = Ok params'
                 ∧ u' = <["spec" := VMap (<["params" := VSlice params']>
                                           (<["steps" := VSlice steps']> spec))]> u))).
Proof.
  unfold TaskImages. destruct (decide (GetKind u ≠ "ClusterTask")) as [Hk|Hk].
  { intros [= <-]. by left. }
  apply dec_stable in Hk.
  destruct (NestedSlice u ["spec"; "steps"]) as [steps| |err] eqn:Hsteps; [| |done].
  2:{ intros [= <-]. right. split; [done|]. by left. }
  destruct (NestedSlice_two_inv _ _ _ _ Hsteps) as (spec & Hspec & Hs).
  destruct (replaceStepsImages steps images) as [steps'|] eqn:Hrs; [|done].
  rewrite (SetNestedField_two _ _ _ _ spec Hspec).
  set (spec1 := <["steps" := VSlice steps']> spec).
  set (u1 := <["spec" := VMap spec1]> u).
  assert (u1 !! "spec" = Some (VMap spec1)) as Hspec1 by apply lookup_insert_eq.
  assert (∀ l, NestedSlice u1 ["spec"; "params"] = l → NestedSlice u ["spec"; "params"] = l)
    as Hsame.
  { intros l <-. unfold NestedSlice, NestedFieldNoCopy. simpl. rewrite Hspec, Hspec1.
    unfold spec1. by rewrite lookup_insert_ne. }
  destruct (NestedSlice u1 ["spec"; "params"]) as [params| |err] eqn:Hparams; [| |done].
  2:{ intros [= <-]. right. split; [done|]. right.
      exists spec, steps, steps'. repeat split; try done.
      left. split; [|done]. by apply Hsame. }
  destruct (NestedSlice_two_inv _ _ _ _ Hparams) as (spec1' & Hspec1' & Hp).
  rewrite Hspec1 in Hspec1'. injection Hspec1' as <-.
  destruct (replaceParamsImage params images) as [params'|] eqn:Hrp; [|done].
  rewrite (SetNestedField_two _ _ _ _ spec1 Hspec1).
  intros [= <-]. right. split; [done|]. right.
  exists spec, steps, steps'. repeat split; try done.
  right. exists params, params'. repeat split; try done.
  - unfold spec1 in Hp. by rewrite lookup_insert_ne in Hp.
  - unfold u1. by rewrite insert_insert_eq.
Qed.

Lemma TaskImages_kind (images : gmap string string) (u u' : Unstructured) :
  TaskImages images u = Returns u' None → GetKind u' = GetKind u.
Proof.
  intros [[_ ->]|[_ [[_ ->]|(spec & steps & steps' & _ & _ & _ & [[_ ->]|H])]]]%TaskImages_nil_inv;
    try done.
  - apply GetKind_lookup. by rewrite lookup_insert_ne.
  - destruct H as (params & params' & _ & _ & ->).
    apply GetKind_lookup. by rewrite lookup_insert_ne.
Qed.

(** What a run of [TaskImages] leaves behind, a second run leaves as it
    is. *)
Lemma TaskImages_again (images : gmap string string) (u u' : Unstructured) :
  TaskImages images u = Returns u' None → TaskImages images u' = Returns u' None.
Proof.
  intros Hrun. pose proof (TaskImages_kind _ _ _ Hrun) as Hkind.
  apply TaskImages_nil_inv in Hrun
    as [[Hk ->]|[Hk [[Hnf ->]|(spec & steps & steps' & Hspec & Hs & Hrs & Hrest)]]].
  - unfold TaskImages. by rewrite decide_True.
  - unfold TaskImages. rewrite decide_False by (by intros ?). by rewrite Hnf.
  - pose proof (replaceStepsImages_again _ _ _ Hrs) as Hrs'.
    destruct Hrest as [[Hnf ->]|(params & params' & Hp & Hrp & ->)].
    + set (spec1 := <["steps" := VSlice steps']> spec) in *.
      set (u1 := <["spec" := VMap spec1]> u) in *.
      assert (u1 !! "spec" = Some (VMap spec1)) as Hspec1 by apply lookup_insert_eq.
      assert (spec1 !! "steps" = Some (VSlice steps')) as Hs1 by apply lookup_insert_eq.
      unfold TaskImages. rewrite decide_False by (rewrite Hkind, Hk; by intros ?).
      rewrite (NestedSlice_two _ _ _ _ _ Hspec1 Hs1), Hrs'.
      rewrite (SetNestedField_two_same _ _ _ _ _ Hspec1 Hs1).
      assert (NestedSlice u1 ["spec"; "params"] = NotFound) as ->; [|done].
      revert Hnf. unfold NestedSlice, NestedFieldNoCopy. simpl. rewrite Hspec, Hspec1.
      unfold spec1. by rewrite lookup_insert_ne.
    + pose proof (replaceParamsImage_again _ _ _ Hrp) as Hrp'.
      set (spec2 := <["params" := VSlice params']> (<["steps" := VSlice steps']> spec)) in *.
      set (u2 := <["spec" := VMap spec2]> u) in *.
      assert (u2 !! "spec" = Some (VMap spec2)) as Hspec2 by apply lookup_insert_eq.
      assert (spec2 !! "steps" = Some (VSlice steps')) as Hs2.
      { unfold spec2. rewrite lookup_insert_ne by done. apply lookup_insert_eq. }
      assert (spec2 !! "params" = Some (VSlice params')) as Hp2 by apply lookup_insert_eq.
      unfold TaskImages. rewrite decide_False by (rewrite Hkind, Hk; by intros ?).
      rewrite (NestedSlice_two _ _ _ _ _ Hspec2 Hs2), Hrs'.
      rewrite (SetNestedField_two_same _ _ _ _ _ Hspec2 Hs2).
      rewrite (NestedSlice_two _ _ _ _ _ Hspec2 Hp2), Hrp'.
      by rewrite (SetNestedField_two_same _ _ _ _ _ Hspec2 Hp2).
Qed.

(** ** Running the webhook transformer again *)

Lemma storeFrom_found (fields seen : list string) (val : value) (k : string) (v : value)
    (m : gmap string value) :
  nestedFieldFrom val seen fields = Found (VMap m) →
  nestedFieldFrom (storeFrom val fields k v) seen fields = Found (VMap (<[k := v]> m)).
Proof.
  revert seen val. induction fields as [|field fields IH]; intros seen val; simpl.
  - by intros [= ->].
  - destruct val as [| | | | | |m0]; try done.
    destruct (m0 !! field) as [sub|] eqn:Hsub; [|done].
    intros Hfound. simpl. rewrite lookup_insert_eq. by apply IH.
Qed.

Lemma storeFrom_again (fields : list string) (val : value) (k : string) (v : value) :
  storeFrom (storeFrom val fields k v) fields k v = storeFrom val fields k v.
Proof.
  revert val. induction fields as [|field fields IH]; intros val.
  - destruct val as [| | | | | |m0]; simpl; try done. by rewrite insert_insert_eq.
  - destruct val as [| | | | | |m0]; simpl; try done.
    destruct (m0 !! field) as [sub|] eqn:Hsub; simpl; [|by rewrite Hsub].
    by rewrite lookup_insert_eq, IH, insert_insert_eq.
Qed.

Lemma storeFrom_map (fields : list string) (m : gmap string value) (k : string) (v : value) :
  storeFrom (VMap m) fields k v = VMap (storeAt m fields k v).
Proof.
  unfold storeAt. destruct fields as [|field fields]; simpl; [done|].
  by destruct (m !! field).
Qed.

Lemma storeAt_other (u : Unstructured) (field : string) (fields : list string)
    (k : string) (v : value) (j : string) :
  j ≠ field → storeAt u (field :: fields) k v !! j = u !! j.
Proof.
  intros Hj. unfold storeAt. simpl. destruct (u !! field); [|done].
  by rewrite lookup_insert_ne.
Qed.

Lemma webhook_kind (targetNamespace : string) (u u' : Unstructured) :
  injectNamespaceCRDWebhookClientConfig targetNamespace u = Returns u' None →
  GetKind u' = GetKind u.
Proof.
  unfold injectNamespaceCRDWebhookClientConfig.
  destruct (decide _); [by intros [= <-]|].
  destruct (NestedFieldNoCopy u webhookServicePath) as [service| |err]; [|by intros [= <-]|done].
  destruct service as [| | | | | |m]; try done.
  destruct (decide _); intros [= <-]; [|done].
  apply GetKind_lookup. by apply storeAt_other.
Qed.

(** What a run of the webhook transformer leaves behind, a second run
    leaves as it is. *)
Lemma webhook_again (targetNamespace : string) (u u' : Unstructured) :
  injectNamespaceCRDWebhookClientConfig targetNamespace u = Returns u' None →
  injectNamespaceCRDWebhookClientConfig targetNamespace u' = Returns u' None.
Proof.
  intros Hrun. pose proof (webhook_kind _ _ _ Hrun) as Hkind. revert Hrun.
  unfold injectNamespaceCRDWebhookClientConfig. rewrite Hkind.
  destruct (decide (ToLower (GetKind u) ≠ "customresourcedefinition")); [done|].
  destruct (NestedFieldNoCopy u webhookServicePath) as [service| |err] eqn:Hservice;
    [|by intros [= <-]; rewrite Hservice|done].
  destruct service as [| | | | | |m]; try done.
  destruct (decide (is_Some (m !! "namespace"))) as [Hns|Hns];
    intros [= <-]; [|by rewrite Hservice, decide_False].
  unfold NestedFieldNoCopy in *.
  rewrite <-storeFrom_map,
    (storeFrom_found _ _ _ "namespace" (VStr targetNamespace) _ Hservice).
  rewrite decide_True by (rewrite lookup_insert_eq; eauto).
  f_equal. assert (Inj (=) (=) VMap) as Hinj by (by intros ?? [= ->]).
  apply Hinj. by rewrite <-!storeFrom_map, storeFrom_again.
Qed.

(** ** Running the pipeline again *)

Section Again.

Context {ContainerRest DeploymentRest : Type}.
Variable FromUnstructured : Unstructured → result (Deployment ContainerRest DeploymentRest).
Variable ToUnstructured : Deployment ContainerRest DeploymentRest → result Unstructured.
Variable InjectOwner : TektonComponent → Transformer.
Variable InjectNamespace : string → Transformer.
Variable images : gmap string string.

Hypothesis Hkeys : keysWithoutEquals images.
Hypothesis Hconv : roundTrips FromUnstructured ToUnstructured.

Lemma DeploymentImages_nil_inv (u u' : Unstructured) :
  DeploymentImages FromUnstructured ToUnstructured images u = Returns u' None →
  (GetKind u ≠ "Deployment" ∧ u' = u)
  ∨ (GetKind u = "Deployment"
     ∧ ∃ d containers,
         FromUnstructured u = Success d
         ∧ replaceContainerImages (Containers d) images = Ok containers
         ∧ ToUnstructured (mkDeployment containers (deploymentRest d)) = Success u').
Proof using Type.
  unfold DeploymentImages. destruct (decide (GetKind u ≠ "Deployment")) as [Hk|Hk].
  { intros [= <-]. by left. }
  apply dec_stable in Hk.
  destruct (FromUnstructured u) as [d|err] eqn:Hfrom; [|done].
  destruct (replaceContainerImages (Containers d) images) as [containers|] eqn:Hcs; [|done].
  destruct (ToUnstructured _) as [o|err] eqn:Hto; [|done].
  intros [= <-]. right. split; [done|]. by exists d, containers.
Qed.

(** What a run of [DeploymentImages] leaves behind, a second run leaves as
    it is. *)
Lemma DeploymentImages_again (u u' : Unstructured) :
  DeploymentImages FromUnstructured ToUnstructured images u = Returns u' None →
  GetKind u = "Deployment" →
  GetKind u' = "Deployment"
  ∧ DeploymentImages FromUnstructured ToUnstructured images u' = Returns u' None.
Proof using Hkeys Hconv.
  intros [[Hk _]|[Hk (d & containers & Hfrom & Hcs & Hto)]]%DeploymentImages_nil_inv Hkind;
    [done|].
  destruct (Hconv u d containers u' Hk Hfrom Hto) as [Hk' Hfrom'].
  split; [done|].
  rewrite (DeploymentImages_typed _ _ _ _ _ Hk' Hfrom'). simpl.
  by rewrite (replaceContainerImages_again _ _ _ Hkeys Hcs), Hto.
Qed.

Lemma injectNamespaceConditional_stable (obj : TektonComponent) (r : Unstructured) :
  libraryStable InjectOwner InjectNamespace obj r →
  injectNamespaceConditional InjectNamespace AnnotationPreserveNS (TargetNamespace obj) r
  = Returns r None.
Proof using Type.
  intros [_ Hns]. unfold injectNamespaceConditional.
  destruct (GetAnnotations r !! AnnotationPreserveNS) as [val|] eqn:Hval; [|by apply Hns].
  destruct (decide (val = "true")) as [->|Hne]; [done|].
  apply Hns. by intros [= ->].
Qed.

(** A resource that went through the whole chain goes through it again
    unchanged, if the library transformers leave it as it is. *)
Lemma pipeline_resource_again (obj : TektonComponent) (r r' : Unstructured) :
  let fns := transformers InjectOwner InjectNamespace obj
             ++ imageTransformers FromUnstructured ToUnstructured images in
  mf.transformResource fns r = Returns r' None →
  libraryStable InjectOwner InjectNamespace obj r' →
  mf.transformResource fns r' = Returns r' None.
Proof using Hkeys Hconv.
  intros fns Hrun Hlib. unfold fns, transformers, imageTransformers in *.
  simpl in Hrun.
  destruct (InjectOwner obj r) as [r1 [?|]|?] eqn:H1; try done.
  destruct (injectNamespaceConditional _ _ _ r1) as [r2 [?|]|?] eqn:H2; try done.
  destruct (injectNamespaceCRDWebhookClientConfig _ r2) as [r3 [?|]|?] eqn:H3; try done.
  destruct (DeploymentImages _ _ _ r3) as [r4 [?|]|?] eqn:H4; try done.
  destruct (TaskImages images r4) as [r5 [?|]|?] eqn:H5; try done.
  injection Hrun as ->.
  pose proof (TaskImages_again _ _ _ H5) as HT.
  pose proof (TaskImages_kind _ _ _ H5) as Hk54.
  assert (GetKind r' ≠ "ClusterTask" → r' = r4) as Hsame54.
  { intros Hk. apply TaskImages_nil_inv in H5 as [[_ ->]|[Hk4 _]]; [done|].
    by rewrite Hk54 in Hk. }
  assert (DeploymentImages FromUnstructured ToUnstructured images r' = Returns r' None) as HD.
  { destruct (decide (GetKind r' = "Deployment")) as [Hk|Hk].
    - rewrite Hsame54 in * by (rewrite Hk; done).
      apply DeploymentImages_nil_inv in H4 as Hinv.
      destruct Hinv as [[Hk3 ->]|[Hk3 _]]; [done|].
      by apply (DeploymentImages_again r3 r4).
    - unfold DeploymentImages. by rewrite decide_True. }
  assert (injectNamespaceCRDWebhookClientConfig (TargetNamespace obj) r' = Returns r' None)
    as HW.
  { destruct (decide (ToLower (GetKind r') = "customresourcedefinition")) as [Hk|Hk].
    - assert (GetKind r' ≠ "ClusterTask") as Hnt by (intros Hk'; by rewrite Hk' in Hk).
      rewrite (Hsame54 Hnt) in *.
      apply DeploymentImages_nil_inv in H4 as Hinv.
      destruct Hinv as [[_ ->]|[Hk3 _]]; [by eapply webhook_again|].
      destruct (DeploymentImages_again r3 r4 H4 Hk3) as [Hk4 _].
      by rewrite Hk4 in Hk.
    - unfold injectNamespaceCRDWebhookClientConfig. by rewrite decide_True. }
  simpl. destruct Hlib as [HO HN].
  rewrite HO, (injectNamespaceConditional_stable obj r' (conj HO HN)), HW, HD. by rewrite HT.
Qed.

End Again.

Lemma transformResources_stable (fns : list (option Transformer)) (rs : list Unstructured) :
  Forall (λ r, mf.transformResource fns r = Returns r None) rs →
  mf.transformResources fns rs = Ok (Success rs).
Proof. induction 1 as [|r rs Hr _ IH]; simpl; [done|]. by rewrite Hr, IH. Qed.


(** The stand-in converter round-trips. *)
Lemma sampleStrings_args (args : list string) :
  sampleStrings (Some (VSlice (VStr <$> args))) = args.
Proof.
  unfold sampleStrings. induction args as [|a args IH]; [done|].
  rewrite fmap_cons. change (a :: omap asString (VStr <$> args) = a :: args). by rewrite IH.
Qed.

Lemma sampleContainerOf_value (c : Container unit) :
  sampleContainerOf (sampleContainerValue c) = Some c.
Proof.
  destruct c as [name image args []]. unfold sampleContainerOf, sampleContainerValue. simpl.
  rewrite lookup_insert_eq. rewrite lookup_insert_ne, lookup_insert_eq by done.
  rewrite !lookup_insert_ne, lookup_singleton_eq by done. simpl.
  f_equal. unfold unitContainer. f_equal. apply (sampleStrings_args args).
Qed.

Lemma sampleContainers_values (cs : list (Container unit)) :
  mapM sampleContainerOf (sampleContainerValue <$> cs) = Some cs.
Proof. apply mapM_fmap_Some, sampleContainerOf_value. Qed.

Lemma sample_roundTrips : roundTrips sampleFromUnstructured sampleToUnstructured.
Proof.
  intros u d containers unstrObj _ _. unfold sampleToUnstructured. simpl.
  set (typed := <["kind" := VStr "Deployment"]> {["spec" := sampleSpec containers]}).
  assert (∀ o : Unstructured,
            o !! "kind" = Some (VStr "Deployment") →
            o !! "spec" = Some (sampleSpec containers) →
            GetKind o = "Deployment"
            ∧ sampleFromUnstructured o = Success (mkDeployment containers (o !! "metadata")))
    as Hshape.
  { intros o Hkind Hspec. split.
    - unfold GetKind, NestedString, NestedFieldNoCopy. simpl. by rewrite Hkind.
    - unfold sampleFromUnstructured, NestedSlice, NestedFieldNoCopy. simpl.
      rewrite Hspec. simpl. rewrite !lookup_singleton_eq. simpl.
      by rewrite sampleContainers_values. }
  destruct (deploymentRest d) as [metadata|]; intros [= <-].
  - destruct (Hshape (<["metadata" := metadata]> typed)) as [Hk Hf].
    + by rewrite lookup_insert_ne.
    + by rewrite lookup_insert_ne.
    + split; [done|]. by rewrite Hf, lookup_insert_eq.
  - destruct (Hshape typed) as [Hk Hf]; [done..|].
    split; [done|]. by rewrite Hf.
Qed.

(** ** A run of the whole pipeline *)



(** * Further properties *)

(** ** Keys *)

Lemma mapBytes_append (f : ascii → ascii) (a b : string) :
  mapBytes f (a +:+ b) = mapBytes f a +:+ mapBytes f b.
Proof.
  induction a as [|c a IH]; [done|].
  change (String (f c) (mapBytes f (a +:+ b)) = String (f c) (mapBytes f a +:+ mapBytes f b)).
  by rewrite IH.
Qed.

Lemma mapBytes_mapBytes (f g : ascii → ascii) (s : string) :
  mapBytes f (mapBytes g s) = mapBytes (f ∘ g) s.
Proof. induction s as [|c s IH]; simpl; [done|]. by rewrite IH. Qed.

Lemma mapBytes_ext (f g : ascii → ascii) (s : string) :
  (∀ c, f c = g c) → mapBytes f s = mapBytes g s.
Proof. intros Hfg. induction s as [|c s IH]; simpl; [done|]. by rewrite Hfg, IH. Qed.

Lemma mapBytes_length (f : ascii → ascii) (s : string) :
  String.length (mapBytes f s) = String.length s.
Proof. induction s as [|c s IH]; simpl; [done|]. by rewrite IH. Qed.

Lemma append_length (a b : string) :
  String.length (a +:+ b) = String.length a + String.length b.
Proof.
  induction a as [|c a IH]; [done|].
  change (S (String.length (a +:+ b)) = S (String.length a + String.length b)). by rewrite IH.
Qed.

Lemma lowerByte_lowerByte (c : ascii) : lowerByte (lowerByte c) = lowerByte c.
Proof. by destruct c as [[] [] [] [] [] [] [] []]. Qed.

Lemma lowerByte_dash (c : ascii) : lowerByte c = "-"%char ↔ c = "-"%char.
Proof. split; [|by intros ->]. by destruct c as [[] [] [] [] [] [] [] []]. Qed.

Lemma underscore_lowerByte_again (c : ascii) :
  underscore (lowerByte (underscore (lowerByte c))) = underscore (lowerByte c).
Proof.
  unfold underscore. destruct (decide (lowerByte c = "-"%char)) as [Hc|Hc]; [done|].
  rewrite lowerByte_lowerByte. by rewrite decide_False.
Qed.

Lemma formKey_bytes (prefix arg : string) :
  formKey prefix arg = mapBytes underscore prefix +:+ mapBytes (underscore ∘ lowerByte) arg.
Proof.
  unfold formKey, ReplaceAll, ToLower. fold underscore.
  destruct (decide (prefix ≠ "")) as [Hp|Hp].
  - by rewrite mapBytes_append, mapBytes_mapBytes.
  - apply dec_stable in Hp as ->. by rewrite mapBytes_mapBytes.
Qed.

(** X1: the key of a name does not depend on the case of its ASCII letters
    nor on whether it is written with dashes or underscores, and the key of a
    key is that key. *)
Theorem formKey_insensitive (prefix arg : string) :
  formKey prefix (ToLower arg) = formKey prefix arg
  ∧ formKey prefix (ReplaceAll arg "-" "_") = formKey prefix arg
  ∧ formKey prefix (formKey "" arg) = formKey prefix arg.
Proof.
  assert (formKey "" arg = mapBytes (underscore ∘ lowerByte) arg) as Hbare
    by by rewrite formKey_bytes.
  rewrite Hbare, !formKey_bytes. unfold ToLower, ReplaceAll. fold underscore.
  rewrite !mapBytes_mapBytes. repeat split; f_equal; apply mapBytes_ext; intros c; simpl.
  - by rewrite lowerByte_lowerByte.
  - unfold underscore at 2. destruct (decide (c = "-"%char)) as [->|Hc]; done.
  - apply underscore_lowerByte_again.
Qed.


(** ** Arguments with one equals sign *)

Lemma Split_length (s : string) (sep : ascii) :
  length (Split s sep) = S (countByte sep s).
Proof.
  induction s as [|c s IH]; simpl; [done|].
  destruct (decide (c = sep)); simpl; [by rewrite IH|].
  destruct (Split s sep); simpl in *; lia.
Qed.

Lemma Split_pieces_without (s : string) (sep : ascii) :
  Forall (λ piece, containsByte sep piece = false) (Split s sep).
Proof.
  induction s as [|c s IH]; simpl; [by repeat constructor|].
  destruct (decide (c = sep)); [by constructor|].
  destruct (Split s sep) as [|piece pieces]; [repeat constructor; simpl; by rewrite decide_False|].
  apply Forall_cons_1 in IH as [Hpiece Hpieces]. constructor; [|done].
  simpl. by rewrite decide_False.
Qed.

Lemma Split_one (s : string) (sep : ascii) (b : string) : Split s sep = [b] → s = b.
Proof.
  revert b. induction s as [|c s IH]; intros b; simpl; [by intros [= <-]|].
  destruct (decide (c = sep)).
  - intros [= _ H]. by apply Split_nonempty in H.
  - destruct (Split s sep) as [|piece pieces] eqn:Hs; [by apply Split_nonempty in Hs|].
    intros [= <- ->]. by rewrite (IH piece).
Qed.

Lemma Split_two (s : string) (sep : ascii) (a b : string) :
  Split s sep = [a; b] → s = a +:+ String sep b.
Proof.
  revert a. induction s as [|c s IH]; intros a; simpl; [done|].
  destruct (decide (c = sep)) as [->|Hc].
  - intros [= <- H]. by rewrite (Split_one _ _ _ H).
  - destruct (Split s sep) as [|piece pieces] eqn:Hs; [done|].
    intros [= <- ->]. by rewrite (IH piece).
Qed.

(** X3: an argument counts as [flag=value] exactly when it holds one equals
    sign; it is then its two pieces with the equals sign between them, and
    neither piece holds an equals sign. *)
Theorem splitsByEqual_one_equals (arg : string) :
  ((splitsByEqual arg).2 = true ↔ countByte "=" arg = 1)
  ∧ ((splitsByEqual arg).2 = true ↔
     ∃ flag val, (splitsByEqual arg).1 = [flag; val]
                 ∧ arg = flag +:+ "=" +:+ val
                 ∧ containsByte "=" flag = false
                 ∧ containsByte "=" val = false).
Proof.
  rewrite splitsByEqual_snd, splitsByEqual_fst, Split_length. split; [lia|]. split.
  - intros Hone. pose proof (Split_length arg "=") as Hlen. rewrite Hone in Hlen.
    pose proof (Split_pieces_without arg "=") as Hpieces.
    destruct (Split arg "=") as [|flag [|val [|]]] eqn:Hsplit; try done.
    exists flag, val. apply Forall_cons_1 in Hpieces as [Hflag Hval%Forall_cons_1].
    repeat split; [by apply Split_two|done|by destruct Hval].
  - intros (flag & val & Hsplit & _). pose proof (Split_length arg "=") as Hlen.
    rewrite Hsplit in Hlen. simpl in Hlen. lia.
Qed.

(** ** The argument list of a container *)

Lemma argsRounds_keeps_length (images : gmap string string) n a (args args' : list string) :
  argsRounds images n a args = Ok args' → length args' = length args.
Proof.
  revert a args. induction n as [|n IH]; intros a args; simpl.
  - by intros [= ->].
  - destruct (args !! a) as [arg|]; [|done].
    destruct (splitsByEqual arg) as [argVal [|]]; repeat case_match; try done;
      intros Hlen%IH; by rewrite ?length_insert in Hlen.
Qed.

(** X4: the rewrite of an argument list neither adds nor drops an
    argument. *)
Theorem replaceContainersArgsImage_length (images : gmap string string)
    (args out : list string) :
  replaceContainersArgsImage args images = Ok out → length out = length args.
Proof. apply argsRounds_keeps_length. Qed.

Lemma replaceContainersArgsImage_length_witness :
  replaceContainersArgsImage ["--replicas"; "v1"; "--tag=old"]
    (<["arg___replicas" := "v2"]> {["arg___tag" := "registry/app:v2"]})
  = Ok ["--replicas"; "v2"; "--tag=registry/app:v2"]
  ∧ length ["--replicas"; "v2"; "--tag=registry/app:v2"]
    = length ["--replicas"; "v1"; "--tag=old"].
Proof.
  split; [reflexivity|].
  apply (replaceContainersArgsImage_length
           (<["arg___replicas" := "v2"]> {["arg___tag" := "registry/app:v2"]})
           ["--replicas"; "v1"; "--tag=old"]).
  reflexivity.
Defined.



Lemma rewriteAssigned_flag (images : gmap string string) (arg : string) :
  (splitsByEqual arg).2 = true →
  (splitsByEqual (rewriteAssigned images arg)).1 !! 0 = (splitsByEqual arg).1 !! 0.
Proof.
  intros Harg. apply splitsByEqual_snd in Harg. unfold rewriteAssigned.
  rewrite !splitsByEqual_fst.
  destruct (Split arg "=") as [|flag [|val [|]]] eqn:Hsplit; try done. simpl.
  destruct (images !! formKey ArgPrefix flag) as [url|]; [|by rewrite Hsplit].
  apply Split_head_without in Hsplit.
  assert (Split (flag +:+ "=" +:+ url) "=" = flag :: Split url "=") as ->
    by by apply (Split_append flag url).
  done.
Qed.

Lemma scanArgs_assigned (images : gmap string string) (rest : list string) (x : string) :
  Forall (λ arg, (splitsByEqual arg).2 = true) (x :: rest) →
  scanArgs images x rest = Ok (rewriteAssigned images <$> x :: rest).
Proof.
  revert x. induction rest as [|y rest IH]; intros x [Hx Hrest]%Forall_cons_1;
    cbn [scanArgs]; rewrite Hx; [done|].
  by rewrite (IH y Hrest).
Qed.





(** ** The containers of a Deployment *)



(** X9: a document that is not of kind [Deployment], written exactly so, and
    a document on which the transformer returns an error are left as they
    were. *)
Theorem DeploymentImages_untouched
    {ContainerRest DeploymentRest : Type}
    (FromUnstructured : Unstructured → result (Deployment ContainerRest DeploymentRest))
    (ToUnstructured : Deployment ContainerRest DeploymentRest → result Unstructured)
    (images : gmap string string) (u u' : Unstructured) (err : option error) :
  DeploymentImages FromUnstructured ToUnstructured images u = Returns u' err →
  GetKind u ≠ "Deployment" ∨ is_Some err →
  DeploymentImages FromUnstructured ToUnstructured images u = Returns u err.
Proof.
  intros Hrun Hcase. rewrite Hrun. f_equal. revert Hrun Hcase.
  unfold DeploymentImages. destruct (decide (GetKind u ≠ "Deployment")) as [Hk|Hk].
  { by intros [= <- <-]. }
  destruct (FromUnstructured u) as [d|e]; [|by intros [= <- <-]].
  destruct (replaceContainerImages (Containers d) images); [|done].
  destruct (ToUnstructured _); [|by intros [= <- <-]].
  intros [= <- <-] [?|[? ?]]; done.
Qed.

Lemma DeploymentImages_untouched_witness :
  DeploymentImages sampleFromUnstructured sampleToUnstructured pipelineOverride brokenDeployment
  = Returns brokenDeployment (Some (LibraryError "cannot unmarshal into corev1.Container"))
  ∧ DeploymentImages sampleFromUnstructured sampleToUnstructured pipelineOverride
      (<["kind" := VStr "deployment"]> brokenDeployment)
    = Returns (<["kind" := VStr "deployment"]> brokenDeployment) None.
Proof.
  split.
  - apply (DeploymentImages_untouched sampleFromUnstructured sampleToUnstructured
             pipelineOverride brokenDeployment brokenDeployment
             (Some (LibraryError "cannot unmarshal into corev1.Container"))).
    + reflexivity.
    + right. eauto.
  - apply (DeploymentImages_untouched sampleFromUnstructured sampleToUnstructured
             pipelineOverride (<["kind" := VStr "deployment"]> brokenDeployment)
             (<["kind" := VStr "deployment"]> brokenDeployment) None).
    + reflexivity.
    + left. vm_compute. discriminate.
Defined.

(** ** The steps and params of a task *)

Lemma replaceStepImage_blank (override : gmap string string) (s s' : value) :
  map_Forall (λ _ image, image = "") override →
  replaceStepImage override s = Ok s' → s' = s.
Proof.
  intros Hblank. unfold replaceStepImage.
  destruct s as [| | | | | |m]; try done.
  destruct (m !! "name") as [[| | | |name| |]|]; try by intros [= <-].
  destruct (override !! formKey "" name) as [image|] eqn:Himage; [|by intros [= <-]].
  apply Hblank in Himage as ->. by intros [= <-].
Qed.

Lemma replaceParamImage_blank (override : gmap string string) (p p' : value) :
  map_Forall (λ _ image, image = "") override →
  replaceParamImage override p = Ok p' → p' = p.
Proof.
  intros Hblank. unfold replaceParamImage.
  destruct p as [| | | | | |m]; try done.
  destruct (m !! "name") as [[| | | |name| |]|]; try by intros [= <-].
  destruct (override !! formKey ParamPrefix name) as [image|] eqn:Himage; [|by intros [= <-]].
  apply Hblank in Himage as ->. by intros [= <-].
Qed.

Lemma replaceStepsImages_blank (override : gmap string string) (steps steps' : list value) :
  map_Forall (λ _ image, image = "") override →
  replaceStepsImages steps override = Ok steps' → steps' = steps.
Proof.
  intros Hblank. revert steps'. induction steps as [|s steps IH]; intros steps'; simpl.
  - by intros [= <-].
  - destruct (replaceStepImage override s) as [s1|] eqn:Hs; [|done].
    destruct (replaceStepsImages steps override) as [steps1|]; [|done].
    intros [= <-]. by rewrite (replaceStepImage_blank _ _ _ Hblank Hs), (IH steps1).
Qed.

Lemma replaceParamsImage_blank (override : gmap string string) (params params' : list value) :
  map_Forall (λ _ image, image = "") override →
  replaceParamsImage params override = Ok params' → params' = params.
Proof.
  intros Hblank. revert params'. induction params as [|p params IH]; intros params'; simpl.
  - by intros [= <-].
  - destruct (replaceParamImage override p) as [p1|] eqn:Hp; [|done].
    destruct (replaceParamsImage params override) as [params1|]; [|done].
    intros [= <-]. by rewrite (replaceParamImage_blank _ _ _ Hblank Hp), (IH params1).
Qed.

(** X10: under a table that holds only empty strings, and so under the empty
    table, the task transformer leaves every document as it was whenever it
    returns. *)
Theorem TaskImages_blank (images : gmap string string) (u u' : Unstructured)
    (err : option error) :
  map_Forall (λ _ image, image = "") images →
  TaskImages images u = Returns u' err →
  TaskImages images u = Returns u err.
Proof.
  intros Hblank Hrun. rewrite Hrun. f_equal. revert Hrun. unfold TaskImages.
  destruct (decide (GetKind u ≠ "ClusterTask")); [by intros [= <-]|].
  destruct (NestedSlice u ["spec"; "steps"]) as [steps| |e] eqn:Hsteps;
    [|by intros [= <-]..].
  destruct (NestedSlice_two_inv _ _ _ _ Hsteps) as (spec & Hspec & Hs).
  destruct (replaceStepsImages steps images) as [steps'|] eqn:Hrs; [|done].
  apply (replaceStepsImages_blank _ _ _ Hblank) in Hrs as ->.
  rewrite (SetNestedField_two_same _ _ _ _ _ Hspec Hs).
  destruct (NestedSlice u ["spec"; "params"]) as [params| |e] eqn:Hparams;
    [|by intros [= <-]..].
  destruct (NestedSlice_two_inv _ _ _ _ Hparams) as (spec' & Hspec' & Hp).
  destruct (replaceParamsImage params images) as [params'|] eqn:Hrp; [|done].
  apply (replaceParamsImage_blank _ _ _ Hblank) in Hrp as ->.
  rewrite (SetNestedField_two_same _ _ _ _ _ Hspec' Hp). by intros [= <-].
Qed.

Lemma TaskImages_blank_witness :
  TaskImages (<["build_push" := ""]> {["param_builder" := ""]}) sampleTask
  = Returns sampleTask None.
Proof.
  apply (TaskImages_blank (<["build_push" := ""]> {["param_builder" := ""]})
           sampleTask sampleTask None).
  - apply (bool_decide_unpack _). vm_compute. exact I.
  - vm_compute. reflexivity.
Defined.

(** X11: when [spec.params] of a task is there and is not a sequence, the
    transformer returns the accessor's error after it has written the
    rewritten steps: the error comes with a changed document. *)
Theorem TaskImages_params_error_after_steps (images : gmap string string) (u : Unstructured)
    (steps steps' : list value) (err : error) :
  GetKind u = "ClusterTask" →
  NestedSlice u ["spec"; "steps"] = Found steps →
  replaceStepsImages steps images = Ok steps' →
  NestedSlice u ["spec"; "params"] = LookupError err →
  ∃ u', TaskImages images u = Returns u' (Some err)
        ∧ NestedSlice u' ["spec"; "steps"] = Found steps'
        ∧ NestedSlice u' ["spec"; "params"] = LookupError err.
Proof.
  intros Hkind Hsteps Hrs Hparams.
  destruct (NestedSlice_two_inv _ _ _ _ Hsteps) as (spec & Hspec & Hs).
  set (spec1 := <["steps" := VSlice steps']> spec).
  set (u1 := <["spec" := VMap spec1]> u).
  assert (u1 !! "spec" = Some (VMap spec1)) as Hspec1 by apply lookup_insert_eq.
  assert (NestedSlice u1 ["spec"; "params"] = LookupError err) as Hparams1.
  { revert Hparams. unfold NestedSlice, NestedFieldNoCopy. simpl. rewrite Hspec, Hspec1.
    unfold spec1. by rewrite lookup_insert_ne. }
  exists u1. split; [|split; [|done]].
  - unfold TaskImages. rewrite decide_False by (by intros ?).
    rewrite Hsteps, Hrs, (SetNestedField_two _ _ _ _ spec Hspec).
    fold spec1. fold u1. by rewrite Hparams1.
  - apply (NestedSlice_two _ _ _ spec1); [done|]. apply lookup_insert_eq.
Qed.

Lemma TaskImages_params_error_after_steps_witness :
  ∃ u', TaskImages sampleOverride taskWithStringParams
        = Returns u' (Some (AccessorError ["spec"; "params"] (VStr "none") "[]interface{}"))
        ∧ NestedSlice u' ["spec"; "steps"]
          = Found [ VMap (<["name" := VStr "Build-Push"]>
                           (<["image" := VStr "new"]> {["script" := VStr "make"]}));
                    VMap (<["name" := VStr "report"]> {["image" := VStr "keep"]});
                    VMap {["image" := VStr "unnamed"]} ]
        ∧ NestedSlice u' ["spec"; "params"]
          = LookupError (AccessorError ["spec"; "params"] (VStr "none") "[]interface{}").
Proof.
  apply (TaskImages_params_error_after_steps sampleOverride taskWithStringParams sampleSteps);
    reflexivity.
Defined.

(** X12: what a run of the task transformer that returns nil leaves behind,
    a second run under the same table leaves as it is. *)
Theorem TaskImages_idempotent (images : gmap string string) (u u' : Unstructured) :
  TaskImages images u = Returns u' None →
  TaskImages images u' = Returns u' None.
Proof. apply TaskImages_again. Qed.

Lemma TaskImages_idempotent_witness :
  ∃ u', TaskImages sampleOverride sampleTask = Returns u' None
        ∧ TaskImages sampleOverride u' = Returns u' None.
Proof.
  destruct (TaskImages sampleOverride sampleTask) as [u' [err|]|msg] eqn:Hrun;
    try (vm_compute in Hrun; discriminate).
  exists u'. split; [done|].
  by apply (TaskImages_idempotent sampleOverride sampleTask u').
Defined.

Lemma TaskImages_returns_inv (images : gmap string string) (u u' : Unstructured)
    (err : option error) :
  TaskImages images u = Returns u' err →
  u' = u
  ∨ ∃ (spec : gmap string value) (steps' : list value),
      u !! "spec" = Some (VMap spec)
      ∧ (u' = <["spec" := VMap (<["steps" := VSlice steps']> spec)]> u
         ∨ ∃ params' : list value,
             u' = <["spec" := VMap (<["params" := VSlice params']>
                                     (<["steps" := VSlice steps']> spec))]> u).
Proof.
  unfold TaskImages. destruct (decide (GetKind u ≠ "ClusterTask")); [intros [= <-]; by left|].
  destruct (NestedSlice u ["spec"; "steps"]) as [steps| |e] eqn:Hsteps;
    [|intros [= <-]; by left..].
  destruct (NestedSlice_two_inv _ _ _ _ Hsteps) as (spec & Hspec & Hs).
  destruct (replaceStepsImages steps images) as [steps'|]; [|done].
  rewrite (SetNestedField_two _ _ _ _ spec Hspec).
  set (spec1 := <["steps" := VSlice steps']> spec).
  set (u1 := <["spec" := VMap spec1]> u).
  assert (u1 !! "spec" = Some (VMap spec1)) as Hspec1 by apply lookup_insert_eq.
  destruct (NestedSlice u1 ["spec"; "params"]) as [params| |e] eqn:Hparams;
    [|intros [= <-]; right; exists spec, steps'; split; [done|by left]..].
  destruct (replaceParamsImage params images) as [params'|]; [|done].
  rewrite (SetNestedField_two _ _ _ _ spec1 Hspec1).
  intros [= <-]. right. exists spec, steps'. split; [done|]. right. exists params'.
  unfold u1. by rewrite insert_insert_eq.
Qed.

(** X13: whenever the task transformer returns, with nil or with an error,
    the document differs from what it was at most in [spec.steps] and
    [spec.params]: its kind, its other top-level fields and the other
    fields of [spec] are as they were. *)
Theorem TaskImages_confined (images : gmap string string) (u u' : Unstructured)
    (err : option error) :
  TaskImages images u = Returns u' err →
  GetKind u' = GetKind u
  ∧ (∀ k, k ≠ "spec" → u' !! k = u !! k)
  ∧ (∀ k, k ≠ "steps" → k ≠ "params" →
       NestedFieldNoCopy u' ["spec"; k] = NestedFieldNoCopy u ["spec"; k]).
Proof.
  intros [->|(spec & steps' & Hspec & Hu')]%TaskImages_returns_inv; [done|].
  assert (∃ spec', u' = <["spec" := VMap spec']> u
                   ∧ ∀ k, k ≠ "steps" → k ≠ "params" → spec' !! k = spec !! k)
    as (spec' & -> & Hframe).
  { destruct Hu' as [->|[params' ->]]; eexists; (split; [done|]);
      intros k ? ?; by rewrite !lookup_insert_ne. }
  split; [|split].
  - apply GetKind_lookup. by rewrite lookup_insert_ne.
  - intros k Hk. by rewrite lookup_insert_ne.
  - intros k Hk1 Hk2. unfold NestedFieldNoCopy. simpl.
    by rewrite lookup_insert_eq, Hspec, Hframe.
Qed.

Lemma TaskImages_confined_witness :
  ∃ u', TaskImages sampleOverride taskWithStringParams
        = Returns u' (Some (AccessorError ["spec"; "params"] (VStr "none") "[]interface{}"))
        ∧ GetKind u' = GetKind taskWithStringParams
        ∧ (∀ k, k ≠ "spec" → u' !! k = taskWithStringParams !! k)
        ∧ (∀ k, k ≠ "steps" → k ≠ "params" →
             NestedFieldNoCopy u' ["spec"; k]
             = NestedFieldNoCopy taskWithStringParams ["spec"; k]).
Proof.
  destruct (TaskImages sampleOverride taskWithStringParams) as [u' err|msg] eqn:Hrun;
    [|vm_compute in Hrun; discriminate].
  exists u'. split.
  - f_equal. vm_compute in Hrun. by injection Hrun as _ <-.
  - by apply (TaskImages_confined sampleOverride taskWithStringParams u' err).
Defined.

(** X14: the rewrite of the steps, and that of the params, goes through
    exactly when every element is a mapping; an element of any other type
    makes it panic. *)
Theorem replaceStepsImages_panics_iff (override : gmap string string) (elems : list value) :
  ((∃ out, replaceStepsImages elems override = Ok out) ↔ Forall isMap elems)
  ∧ ((∃ out, replaceParamsImage elems override = Ok out) ↔ Forall isMap elems).
Proof.
  split; split.
  - intros [out Hout]. revert out Hout. induction elems as [|s elems IH]; intros out; simpl.
    + constructor.
    + destruct (replaceStepImage override s) as [s'|] eqn:Hs; [|done].
      destruct (replaceStepsImages elems override) as [out'|]; [|done].
      intros _. constructor; [|by eapply IH]. by destruct s.
  - intros Hall. destruct (replaceStepsImages_writesOnly override elems Hall) as (out & ? & _).
    by exists out.
  - intros [out Hout]. revert out Hout. induction elems as [|p elems IH]; intros out; simpl.
    + constructor.
    + destruct (replaceParamImage override p) as [p'|] eqn:Hp; [|done].
      destruct (replaceParamsImage elems override) as [out'|]; [|done].
      intros _. constructor; [|by eapply IH]. by destruct p.
  - intros Hall. destruct (replaceParamsImage_writesOnly override elems Hall) as (out & ? & _).
    by exists out.
Qed.

(** ** The webhook service of a CRD *)

(** A store through one path is not seen through a path that parts ways
    with it. *)
Lemma storeFrom_frame (common : list string) :
  ∀ (val : value) (seen fields : list string) (k : string) (v : value)
    (a b : string) (p' q' : list string),
    fields ++ [k] = common ++ b :: q' → a ≠ b →
    nestedFieldFrom (storeFrom val fields k v) seen (common ++ a :: p')
    = nestedFieldFrom val seen (common ++ a :: p').
Proof.
  induction common as [|c common IH]; intros val seen fields k v a b p' q' Hq Hab.
  - destruct val as [| | | | | |m]; try by destruct fields.
    destruct fields as [|f fields]; simpl in *.
    + injection Hq as -> _. by rewrite lookup_insert_ne.
    + injection Hq as -> _. destruct (m !! b) eqn:Hb; [|done]. simpl.
      by rewrite lookup_insert_ne.
  - destruct val as [| | | | | |m]; try by destruct fields.
    destruct fields as [|f fields]; simpl in *.
    + injection Hq as _ Hq. by destruct common.
    + injection Hq as -> Hq. destruct (m !! c) as [sub|] eqn:Hc; [|simpl; by rewrite Hc].
      simpl. rewrite lookup_insert_eq. by eapply IH.
Qed.

Lemma storeAt_frame (u : Unstructured) (fields path : list string) (k : string) (v : value) :
  partWays path (fields ++ [k]) →
  NestedFieldNoCopy (storeAt u fields k v) path = NestedFieldNoCopy u path.
Proof.
  intros (common & a & b & p' & q' & -> & Hq & Hab). unfold NestedFieldNoCopy.
  rewrite <-storeFrom_map. by eapply storeFrom_frame.
Qed.

Lemma nestedFieldFrom_snoc (fields seen : list string) (val : value)
    (m : gmap string value) (k : string) (v : value) :
  nestedFieldFrom val seen fields = Found (VMap m) →
  m !! k = Some v →
  nestedFieldFrom val seen (fields ++ [k]) = Found v.
Proof.
  revert seen val. induction fields as [|field fields IH]; intros seen val; simpl.
  - intros [= ->] Hk. by rewrite Hk.
  - destruct val as [| | | | | |m0]; try done.
    destruct (m0 !! field) as [sub|]; [|done]. apply IH.
Qed.

(** X15: on a CRD whose webhook service is a mapping with a [namespace]
    field, the transformer returns nil, the field then holds the target
    namespace and the other fields of the service are as they were. *)
Theorem webhook_sets_namespace (targetNamespace : string) (u : Unstructured)
    (service : gmap string value) :
  ToLower (GetKind u) = "customresourcedefinition" →
  NestedFieldNoCopy u webhookServicePath = Found (VMap service) →
  is_Some (service !! "namespace") →
  ∃ u', injectNamespaceCRDWebhookClientConfig targetNamespace u = Returns u' None
        ∧ NestedFieldNoCopy u' (webhookServicePath ++ ["namespace"])
          = Found (VStr targetNamespace)
        ∧ NestedFieldNoCopy u' webhookServicePath
          = Found (VMap (<["namespace" := VStr targetNamespace]> service)).
Proof.
  intros Hkind Hservice Hns. eexists. split; [|split].
  - unfold injectNamespaceCRDWebhookClientConfig.
    rewrite decide_False by (by intros ?). rewrite Hservice. by rewrite decide_True.
  - unfold NestedFieldNoCopy in *. rewrite <-storeFrom_map.
    eapply nestedFieldFrom_snoc; [by apply storeFrom_found|apply lookup_insert_eq].
  - unfold NestedFieldNoCopy in *. rewrite <-storeFrom_map. by apply storeFrom_found.
Qed.

Lemma webhook_sets_namespace_witness :
  ∃ u', injectNamespaceCRDWebhookClientConfig "tekton-pipelines" crdWithService
        = Returns u' None
        ∧ NestedFieldNoCopy u' (webhookServicePath ++ ["namespace"])
          = Found (VStr "tekton-pipelines")
        ∧ NestedFieldNoCopy u' webhookServicePath
          = Found (VMap (<["namespace" := VStr "tekton-pipelines"]>
                          (<["name" := VStr "tekton-pipelines-webhook"]>
                            {["namespace" := VStr "default"]}))).
Proof.
  apply (webhook_sets_namespace "tekton-pipelines" crdWithService
           (<["name" := VStr "tekton-pipelines-webhook"]> {["namespace" := VStr "default"]})).
  - reflexivity.
  - reflexivity.
  - eexists. reflexivity.
Defined.

(** X16: whenever the webhook transformer returns, what is read through a
    path that parts ways with
    [spec.conversion.webhookClientConfig.service.namespace] is what was read
    before; with an error the whole document is as it was. *)
Theorem webhook_confined (targetNamespace : string) (u u' : Unstructured)
    (err : option error) (path : list string) :
  injectNamespaceCRDWebhookClientConfig targetNamespace u = Returns u' err →
  (partWays path (webhookServicePath ++ ["namespace"]) →
   NestedFieldNoCopy u' path = NestedFieldNoCopy u path)
  ∧ (is_Some err → u' = u).
Proof.
  unfold injectNamespaceCRDWebhookClientConfig.
  destruct (decide _); [by intros [= <- <-]|].
  destruct (NestedFieldNoCopy u webhookServicePath) as [service| |e];
    [|by intros [= <- <-]..].
  destruct service as [| | | | | |m]; try done.
  destruct (decide _); intros [= <- <-]; [|done].
  split; [apply storeAt_frame|by intros [? ?]].
Qed.

Lemma webhook_confined_witness :
  ∃ u', injectNamespaceCRDWebhookClientConfig "tekton-pipelines" crdWithService
        = Returns u' None
        ∧ NestedFieldNoCopy u' (webhookServicePath ++ ["name"])
          = Found (VStr "tekton-pipelines-webhook").
Proof.
  destruct (injectNamespaceCRDWebhookClientConfig "tekton-pipelines" crdWithService)
    as [u' err|msg] eqn:Hrun; [|vm_compute in Hrun; discriminate].
  exists u'. split.
  - f_equal. vm_compute in Hrun. by injection Hrun as _ <-.
  - destruct (webhook_confined "tekton-pipelines" crdWithService u' err
                (webhookServicePath ++ ["name"]) Hrun) as [Hframe _].
    rewrite Hframe; [reflexivity|].
    exists webhookServicePath, "name", "namespace", [], []. by repeat split.
Defined.

(** X17: what a run of the webhook transformer that returns nil leaves
    behind, a second run with the same namespace leaves as it is. *)
Theorem webhook_idempotent (targetNamespace : string) (u u' : Unstructured) :
  injectNamespaceCRDWebhookClientConfig targetNamespace u = Returns u' None →
  injectNamespaceCRDWebhookClientConfig targetNamespace u' = Returns u' None.
Proof. apply webhook_again. Qed.

Lemma webhook_idempotent_witness :
  ∃ u', injectNamespaceCRDWebhookClientConfig "tekton-pipelines" crdWithService
        = Returns u' None
        ∧ injectNamespaceCRDWebhookClientConfig "tekton-pipelines" u' = Returns u' None.
Proof.
  destruct (injectNamespaceCRDWebhookClientConfig "tekton-pipelines" crdWithService)
    as [u' [err|]|msg] eqn:Hrun; try (vm_compute in Hrun; discriminate).
  exists u'. split; [done|].
  by apply (webhook_idempotent "tekton-pipelines" crdWithService u').
Defined.

Lemma nestedFieldFrom_error_iff (fields : list string) :
  ∀ (val : value) (seen : list string),
    (∃ err, nestedFieldFrom val seen fields = LookupError err)
    ↔ ∃ (before : list string) (field : string) (after : list string) (w : value),
        fields = before ++ field :: after
        ∧ nestedFieldFrom val seen before = Found w
        ∧ w ≠ VNil ∧ ¬ isMap w.
Proof.
  induction fields as [|f fields IH]; intros val seen.
  - split; [by intros [err ?]|]. intros (before & ? & ? & ? & Heq & _). by destruct before.
  - split.
    + intros [err Herr].
      destruct val as [|b|n|bits|s|l|m]; simpl in Herr; try done.
      { exists [], f, fields, (VBool b). repeat split; try done; by intros []. }
      { exists [], f, fields, (VInt n). repeat split; try done; by intros []. }
      { exists [], f, fields, (VFloat bits). repeat split; try done; by intros []. }
      { exists [], f, fields, (VStr s). repeat split; try done; by intros []. }
      { exists [], f, fields, (VSlice l). repeat split; try done; by intros []. }
      destruct (m !! f) as [sub|] eqn:Hf; [|done].
      destruct (proj1 (IH sub (seen ++ [f])) (ex_intro _ err Herr))
        as (before & field & after & w & -> & Hw & Hnil & Hmap).
      exists (f :: before), field, after, w. repeat split; try done. simpl. by rewrite Hf.
    + intros (before & field & after & w & Heq & Hw & Hnil & Hmap).
      destruct before as [|b before]; simpl in *.
      * injection Heq as -> ->. injection Hw as ->.
        destruct w; try done; by eexists.
      * injection Heq as <- ->.
        destruct val as [| | | | | |m]; try done.
        destruct (m !! f) as [sub|] eqn:Hf; [|done].
        apply IH. by exists before, field, after, w.
Qed.

(** X18: on a CRD the webhook transformer returns an error exactly when, on
    the way to the service, one of [spec], [spec.conversion] and
    [spec.conversion.webhookClientConfig] is there and is neither nil nor a
    mapping; the type of the service itself is not what decides it. *)
Theorem webhook_error_iff (targetNamespace : string) (u : Unstructured) :
  ToLower (GetKind u) = "customresourcedefinition" →
  (∃ u' err, injectNamespaceCRDWebhookClientConfig targetNamespace u = Returns u' (Some err))
  ↔ blockedBefore u webhookServicePath.
Proof.
  intros Hkind. unfold blockedBefore, NestedFieldNoCopy.
  rewrite <-(nestedFieldFrom_error_iff webhookServicePath (VMap u) []).
  unfold injectNamespaceCRDWebhookClientConfig, NestedFieldNoCopy.
  rewrite decide_False by (by intros ?).
  destruct (nestedFieldFrom (VMap u) [] webhookServicePath) as [service| |e].
  - split; [|by intros [? ?]]. intros (u' & err & Hrun).
    destruct service; try done. by destruct (decide _).
  - split; [|by intros [? ?]]. by intros (u' & err & Hrun).
  - split; [by eexists|]. intros _. by exists u, e.
Qed.

Lemma webhook_error_iff_witness :
  ∃ u' err, injectNamespaceCRDWebhookClientConfig "tekton-pipelines" crdWithStringConfig
            = Returns u' (Some err).
Proof.
  apply (webhook_error_iff "tekton-pipelines" crdWithStringConfig); [reflexivity|].
  exists ["spec"; "conversion"; "webhookClientConfig"], "service", [], (VStr "inline").
  repeat split; [discriminate | simpl; tauto].
Defined.

(** ** The table built from the environment *)

Lemma envRounds_app (prefix : string) (before after : list string)
    (images : gmap string string) :
  envRounds prefix (before ++ after) images
  = envRounds prefix before images ≫= envRounds prefix after.
Proof.
  revert images. induction before as [|env before IH]; intros images; simpl; [done|].
  destruct (negb (HasPrefix env prefix)); [apply IH|].
  destruct (Split env "=") as [|key [|url pieces]]; simpl; try done; apply IH.
Qed.

Lemma envRounds_filter (prefix : string) (environ : list string)
    (images : gmap string string) :
  envRounds prefix environ images
  = envRounds prefix (filter (λ env, HasPrefix env prefix = true) environ) images.
Proof.
  revert images. induction environ as [|env environ IH]; intros images; [done|].
  destruct (HasPrefix env prefix) eqn:Hp.
  - rewrite filter_cons_True by done. simpl. rewrite Hp. simpl.
    destruct (Split env "=") as [|key [|url pieces]]; simpl; try done; apply IH.
  - rewrite filter_cons_False by (by rewrite Hp). simpl. rewrite Hp. apply IH.
Qed.

(** X19: the entries of the environment that do not start with the prefix
    play no part: without them the outcome is the same. *)
Theorem ImagesFromEnv_ignores_others (environ : list string) (prefix : string) :
  ImagesFromEnv environ prefix
  = ImagesFromEnv (filter (λ env, HasPrefix env prefix = true) environ) prefix.
Proof. apply envRounds_filter. Qed.

Lemma envRounds_panics_iff (prefix : string) (environ : list string)
    (images : gmap string string) :
  (∃ msg, envRounds prefix environ images = Panic msg)
  ↔ Exists (λ env, HasPrefix env prefix = true ∧ containsByte "=" env = false) environ.
Proof.
  revert images. induction environ as [|env environ IH]; intros images; simpl.
  - split; [by intros [? ?]|]. by intros ?%Exists_nil.
  - rewrite Exists_cons. destruct (HasPrefix env prefix) eqn:Hp; simpl.
    + destruct (containsByte "=" env) eqn:Hc.
      * pose proof (Split_with _ _ Hc) as Hlen.
        destruct (Split env "=") as [|key [|url pieces]]; simpl in Hlen; try lia. simpl.
        rewrite IH. split; [by right|]. by intros [[_ ?]|?].
      * rewrite (Split_without _ _ Hc). simpl. split; [by left|by eexists].
    + rewrite IH. split; [by right|]. by intros [[? _]|?].
Qed.

(** X20: the builder panics exactly when some entry that starts with the
    prefix holds no equals sign. *)
Theorem ImagesFromEnv_panics_iff (environ : list string) (prefix : string) :
  (∃ msg, ImagesFromEnv environ prefix = Panic msg)
  ↔ Exists (λ env, HasPrefix env prefix = true ∧ containsByte "=" env = false) environ.
Proof. apply envRounds_panics_iff. Qed.

Lemma envRounds_without_equals (prefix : string) (environ : list string)
    (images images' : gmap string string) :
  map_Forall (λ key url, containsByte "=" key = false ∧ containsByte "=" url = false) images →
  envRounds prefix environ images = Ok images' →
  map_Forall (λ key url, containsByte "=" key = false ∧ containsByte "=" url = false) images'.
Proof.
  revert images. induction environ as [|env environ IH]; intros images Hall; simpl.
  - by intros [= <-].
  - destruct (negb (HasPrefix env prefix)); [by apply IH|].
    pose proof (Split_pieces_without env "=") as Hpieces.
    destruct (Split env "=") as [|key [|url pieces]] eqn:Hsplit; simpl; try done.
    apply IH. apply map_Forall_insert_2; [|done].
    apply Forall_cons_1 in Hpieces as [Hkey [Hurl _]%Forall_cons_1]. split; [|done].
    unfold TrimPrefix. destruct (HasPrefix key prefix); [|done].
    by apply dropBytes_without.
Qed.

(** X21: in a table built from the environment neither a name nor a value
    holds an equals sign. *)
Theorem ImagesFromEnv_without_equals (environ : list string) (prefix : string)
    (images : gmap string string) :
  ImagesFromEnv environ prefix = Ok images →
  map_Forall (λ name url, containsByte "=" name = false ∧ containsByte "=" url = false) images.
Proof. apply envRounds_without_equals, map_Forall_empty. Qed.

Lemma ImagesFromEnv_without_equals_witness :
  map_Forall (λ name url, containsByte "=" name = false ∧ containsByte "=" url = false)
    (<["CONTROLLER" := "registry/controller@sha"]>
       ({["WEBHOOK" := "registry/webhook:v1"]} : gmap string string)).
Proof.
  apply (ImagesFromEnv_without_equals
           ["PATH=/usr/bin"; "IMAGE_PIPELINES_CONTROLLER=registry/controller@sha=1";
            "IMAGE_PIPELINES_WEBHOOK=registry/webhook:v1"]
           PipelinesImagePrefix).
  vm_compute. reflexivity.
Defined.

Lemma envRounds_entry (prefix name value : string) (images : gmap string string) :
  containsByte "=" prefix = false →
  containsByte "=" name = false →
  envRounds prefix [prefix +:+ name +:+ "=" +:+ value] images
  = Ok (<[name := default "" (Split value "=" !! 0)]> images).
Proof.
  intros Hprefix Hname.
  assert (Split (prefix +:+ name +:+ "=" +:+ value) "="
          = (prefix +:+ name) :: Split value "=") as Hsplit.
  { rewrite <-(Split_append (prefix +:+ name) value "=")
      by by apply containsByte_append_false.
    f_equal. apply (append_associative prefix name (String "=" value)). }
  cbn [envRounds]. rewrite HasPrefix_append, Hsplit. cbn [negb].
  pose proof (Split_nonempty value "=") as Hne.
  destruct (Split value "=") as [|piece pieces]; [done|]. simpl.
  by rewrite TrimPrefix_append.
Qed.

(** X22: an entry for a name at the end of the environment decides what the
    table holds under that name, whatever the entries before it said. *)
Theorem ImagesFromEnv_later_entry_wins (environ : list string) (prefix name value : string)
    (images : gmap string string) :
  containsByte "=" prefix = false →
  containsByte "=" name = false →
  ImagesFromEnv environ prefix = Ok images →
  ImagesFromEnv (environ ++ [prefix +:+ name +:+ "=" +:+ value]) prefix
  = Ok (<[name := default "" (Split value "=" !! 0)]> images).
Proof.
  intros Hprefix Hname Hrun. unfold ImagesFromEnv in *.
  rewrite envRounds_app, Hrun. by apply envRounds_entry.
Qed.

Lemma ImagesFromEnv_later_entry_wins_witness :
  ImagesFromEnv (["IMAGE_PIPELINES_CONTROLLER=old"; "IMAGE_PIPELINES_WEBHOOK=w"]
                 ++ ["IMAGE_PIPELINES_CONTROLLER=new"]) PipelinesImagePrefix
  = Ok (<["CONTROLLER" := "new"]> (<["CONTROLLER" := "old"]> {["WEBHOOK" := "w"]})).
Proof.
  apply (ImagesFromEnv_later_entry_wins
           ["IMAGE_PIPELINES_CONTROLLER=old"; "IMAGE_PIPELINES_WEBHOOK=w"]
           PipelinesImagePrefix "CONTROLLER" "new"); reflexivity.
Defined.

Lemma envRounds_from_environ (prefix : string) (environ : list string)
    (images images' : gmap string string) (name url : string) :
  envRounds prefix environ images = Ok images' →
  images' !! name = Some url →
  images !! name = Some url
  ∨ ∃ env key, env ∈ environ
               ∧ HasPrefix env prefix = true
               ∧ Split env "=" !! 0 = Some key
               ∧ TrimPrefix key prefix = name
               ∧ Split env "=" !! 1 = Some url.
Proof.
  revert images. induction environ as [|env environ IH]; intros images; simpl.
  - intros [= <-]. by left.
  - destruct (HasPrefix env prefix) eqn:Hp; simpl.
    + destruct (Split env "=") as [|key [|val pieces]] eqn:Hsplit; simpl; try done.
      intros Hrun Hlook. destruct (IH _ Hrun Hlook) as [Hin|(env' & key' & Hin & ?)].
      * destruct (decide (TrimPrefix key prefix = name)) as [<-|Hne].
        -- rewrite lookup_insert_eq in Hin. injection Hin as ->.
           right. exists env, key. rewrite Hsplit. repeat split; try done. by left.
        -- rewrite lookup_insert_ne in Hin by done. by left.
      * right. exists env', key'. split; [by right|done].
    + intros Hrun Hlook. destruct (IH _ Hrun Hlook) as [Hin|(env' & key' & Hin & ?)];
        [by left|].
      right. exists env', key'. split; [by right|done].
Qed.

(** X23: the table holds nothing that the environment does not: each of its
    entries is the name, with the prefix trimmed, and the second piece of
    some entry of the environment that starts with the prefix. *)
Theorem ImagesFromEnv_from_environ (environ : list string) (prefix name url : string)
    (images : gmap string string) :
  ImagesFromEnv environ prefix = Ok images →
  images !! name = Some url →
  ∃ env key, env ∈ environ
             ∧ HasPrefix env prefix = true
             ∧ Split env "=" !! 0 = Some key
             ∧ TrimPrefix key prefix = name
             ∧ Split env "=" !! 1 = Some url.
Proof.
  intros Hrun Hlook.
  by destruct (envRounds_from_environ _ _ _ _ _ _ Hrun Hlook) as [?|?].
Qed.

Lemma ImagesFromEnv_from_environ_witness :
  ∃ env key, env ∈ ["PATH=/usr/bin"; "IMAGE_PIPELINES_WEBHOOK=registry/webhook:v1"]
             ∧ HasPrefix env PipelinesImagePrefix = true
             ∧ Split env "=" !! 0 = Some key
             ∧ TrimPrefix key PipelinesImagePrefix = "WEBHOOK"
             ∧ Split env "=" !! 1 = Some "registry/webhook:v1".
Proof.
  apply (ImagesFromEnv_from_environ
           ["PATH=/usr/bin"; "IMAGE_PIPELINES_WEBHOOK=registry/webhook:v1"]
           PipelinesImagePrefix "WEBHOOK" "registry/webhook:v1"
           {["WEBHOOK" := "registry/webhook:v1"]}); reflexivity.
Defined.

(** ** Lower-case keys *)

Lemma lowerCaseRounds_snoc (pairs : list (string * string)) (k v : string)
    (newMap : gmap string string) :
  lowerCaseRounds (pairs ++ [(k, v)]) newMap = <[ToLower k := v]> (lowerCaseRounds pairs newMap).
Proof. unfold lowerCaseRounds. by rewrite foldl_app. Qed.

Lemma lowerCaseRounds_lookup (pairs : list (string * string)) (newMap : gmap string string)
    (key v : string) :
  lowerCaseRounds pairs newMap !! key = Some v →
  newMap !! key = Some v ∨ ∃ k, (k, v) ∈ pairs ∧ ToLower k = key.
Proof.
  revert newMap. induction pairs as [|[k0 v0] pairs IH]; intros newMap; simpl; [by left|].
  intros [Hin|(k & Hin & Hk)]%IH.
  - destruct (decide (ToLower k0 = key)) as [<-|Hne].
    + rewrite lookup_insert_eq in Hin. injection Hin as ->. right. exists k0. split; [by left|done].
    + rewrite lookup_insert_ne in Hin by done. by left.
  - right. exists k. split; [by right|done].
Qed.

Lemma lowerCaseRounds_is_Some (pairs : list (string * string)) (newMap : gmap string string)
    (key : string) :
  is_Some (newMap !! key) ∨ (∃ k v, (k, v) ∈ pairs ∧ ToLower k = key) →
  is_Some (lowerCaseRounds pairs newMap !! key).
Proof.
  revert newMap. induction pairs as [|[k0 v0] pairs IH]; intros newMap; simpl.
  - intros [?|(k & v & Hin & _)]; [done|]. by apply elem_of_nil in Hin.
  - intros [Hacc|(k & v & Hin & Hk)]; apply IH.
    + left. destruct (decide (ToLower k0 = key)) as [<-|Hne].
      * rewrite lookup_insert_eq. eauto.
      * by rewrite lookup_insert_ne.
    + apply elem_of_cons in Hin as [[= -> ->]|Hin].
      * left. rewrite <-Hk, lookup_insert_eq. eauto.
      * right. eauto.
Qed.

Lemma ToLower_ToLower (s : string) : ToLower (ToLower s) = ToLower s.
Proof.
  unfold ToLower. rewrite mapBytes_mapBytes. apply mapBytes_ext. intros c. simpl.
  apply lowerByte_lowerByte.
Qed.

Lemma ToLowerCaseKeys_keys_aux (keyValues newMap : gmap string string) :
  ToLowerCaseKeys keyValues newMap →
  (∀ key, is_Some (newMap !! key)
          ↔ ∃ k, is_Some (keyValues !! k) ∧ ToLower k = key)
  ∧ (∀ key v, newMap !! key = Some v →
       ∃ k, keyValues !! k = Some v ∧ ToLower k = key).
Proof.
  intros (order & Hperm & ->).
  assert (∀ key v, lowerCaseRounds order ∅ !! key = Some v →
                   ∃ k, keyValues !! k = Some v ∧ ToLower k = key) as Hfrom.
  { intros key v [Hin|(k & Hin & Hk)]%lowerCaseRounds_lookup; [done|].
    exists k. split; [|done]. apply elem_of_map_to_list. by rewrite <-Hperm. }
  split; [|done].
  intros key. split.
  - intros [v (k & Hk & Hkey)%Hfrom]. exists k. eauto.
  - intros (k & [v Hk] & Hkey). apply lowerCaseRounds_is_Some. right.
    exists k, v. split; [|done]. rewrite Hperm. by apply elem_of_map_to_list.
Qed.





Lemma ToLowerCaseKeys_any_last (keyValues : gmap string string) (k v : string) :
  keyValues !! k = Some v →
  ∃ newMap, ToLowerCaseKeys keyValues newMap ∧ newMap !! ToLower k = Some v.
Proof.
  intros Hk%elem_of_map_to_list. apply elem_of_Permutation in Hk as [rest Hperm].
  exists (lowerCaseRounds (rest ++ [(k, v)]) ∅). split.
  - exists (rest ++ [(k, v)]). split; [|done]. rewrite Hperm. symmetry. apply Permutation_cons_append.
  - by rewrite lowerCaseRounds_snoc, lookup_insert_eq.
Qed.



(** ** Annotations that are not strings *)

(** X27: in a document one of whose annotations is not a string the
    preserve-namespace annotation is not seen, whatever it reads: the call is
    the call of the library's namespace injection. *)
Theorem preserve_annotation_needs_strings
    (InjectNamespace : string → Transformer) (targetNamespace : string) (u : Unstructured)
    (annotations : gmap string value) (key : string) (val : value) :
  NestedFieldNoCopy u ["metadata"; "annotations"] = Found (VMap annotations) →
  annotations !! key = Some val →
  asString val = None →
  injectNamespaceConditional InjectNamespace AnnotationPreserveNS targetNamespace u
  = InjectNamespace targetNamespace u.
Proof.
  intros Hfound Hkey Hval. unfold injectNamespaceConditional, GetAnnotations, NestedStringMap.
  rewrite Hfound, decide_False; [done|].
  intros Hall. destruct (Hall key val Hkey) as [s Hs]. congruence.
Qed.

Lemma preserve_annotation_needs_strings_witness :
  injectNamespaceConditional sampleInjectNamespace AnnotationPreserveNS "tekton-pipelines"
    annotatedWithNumber
  = sampleInjectNamespace "tekton-pipelines" annotatedWithNumber.
Proof.
  apply (preserve_annotation_needs_strings sampleInjectNamespace "tekton-pipelines"
           annotatedWithNumber
           (<[AnnotationPreserveNS := VStr "true"]> {["revision" := VInt 3]})
           "revision" (VInt 3)); reflexivity.
Defined.

(** ** The order of the transformers *)

(** X28: when [Transform] returns nil, each resource of the new manifest is
    what the extra transformers made of what the three common transformers
    made of the resource at its place in the old manifest. *)
Theorem Transform_common_then_extra
    (InjectOwner : TektonComponent → Transformer)
    (InjectNamespace : string → Transformer)
    (w w' : world) (extra : list (option Transformer)) :
  Transform InjectOwner InjectNamespace w extra = (w', Ok None) →
  Forall2 (λ r r', ∃ r0,
             mf.transformResource (transformers InjectOwner InjectNamespace (instance w)) r
             = Returns r0 None
             ∧ mf.transformResource extra r0 = Returns r' None)
          (mf.resources (manifest w)) (mf.resources (manifest w')).
Proof.
  unfold Transform, mf.Transform.
  set (common := transformers InjectOwner InjectNamespace (instance w)).
  destruct (mf.transformResources (common ++ extra) (mf.resources (manifest w)))
    as [[rs|err]|msg] eqn:Hrs; try done.
  intros [= <-]. cbn [manifest mf.resources]. apply transformResources_success in Hrs.
  induction Hrs as [|r r' rs0 rs' Hr _ IH]; constructor; [|done].
  rewrite transformResource_app in Hr.
  destruct (mf.transformResource common r) as [r0 [err|]|msg]; try done. by exists r0.
Qed.

Lemma Transform_common_then_extra_witness :
  Forall2 (λ r r', ∃ r0,
             mf.transformResource
               (transformers sampleInjectOwner sampleInjectNamespace (instance pipelineWorld)) r
             = Returns r0 None
             ∧ mf.transformResource
                 (imageTransformers sampleFromUnstructured sampleToUnstructured
                    pipelineOverride) r0
               = Returns r' None)
          (mf.resources (manifest pipelineWorld)) (mf.resources (manifest pipelineWorldAfter)).
Proof.
  apply (Transform_common_then_extra sampleInjectOwner sampleInjectNamespace
           pipelineWorld pipelineWorldAfter
           (imageTransformers sampleFromUnstructured sampleToUnstructured pipelineOverride)).
  vm_compute. reflexivity.
Defined.
